(** * Share-link lifecycle of the file-sharing backend

    A shallow embedding of [server/src/controllers/file.controller.js]:
    the Mongo collections are lists of documents, the object store is a
    list of objects, every request handler is a function from the world
    before the request to the response and the world after it. *)

From Stdlib Require Import ZArith List String Ascii Bool Lia.
Import ListNotations.
Open Scope string_scope.
Open Scope Z_scope.

(** ** JavaScript values carried by a request body *)

Module Js.

(** A JS number (an IEEE 754 double): [NaN], an integer [Fin z], or any
    other number (a fraction, an infinity), kept as a literal that denotes
    it.  Double arithmetic is computed here on integers only, and only
    where it is exact. *)
Inductive num := NaN | Fin (z : Z) | Other (lit : string).

Inductive value :=
| undefined
| null
| boolean (b : bool)
| number (n : num)
| str (s : string).

(** [ToBoolean]: the truthiness used by [if (x)] and [!x]. *)
Definition truthy (v : value) : bool :=
  match v with
  | undefined | null => false
  | boolean b => b
  | number NaN => false
  | number (Fin z) => negb (z =? 0)
  | number (Other _) => true
  | str s => negb (s =? "")%string
  end.

(** [x === 'lit'] against a string literal. *)
Definition strict_eq_str (v : value) (lit : string) : bool :=
  match v with
  | str s => (s =? lit)%string
  | _ => false
  end.

(** Every integer up to [2^53] in magnitude is a double, so a product of
    integers that stays within it is computed exactly. *)
Definition safe (z : Z) : bool := Z.abs z <=? 2 ^ 53.

(** A [Date] object: its time value is a number of milliseconds or NaN
    ("Invalid Date"). *)
Inductive date := InvalidDate | Date (ms : Z).

(** The largest time value of a valid date: 100,000,000 days from the
    epoch, in milliseconds. *)
Definition max_time : Z := 8640000000000000.

Definition valid_time (t : Z) : Prop := Z.abs t <= max_time.

(** [new Date(t)] for an integer [t]: TimeClip makes the date invalid
    beyond [max_time]. *)
Definition time_clip (t : Z) : date :=
  if Z.abs t <=? max_time then Date t else InvalidDate.

(** [e && new Date(e) < new Date()] for the stored field [e] (unset, or
    the milliseconds of a valid date) and the clock reading [now].  An
    unset field is falsy. *)
Definition before_now (e : option Z) (now : Z) : bool :=
  match e with
  | Some t => t <? now
  | None => false
  end.

End Js.

(** ** Documents *)

Module File.

(** A document of the [File] or [GuestFile] collection.  The schemas are
    in [models/*.models.js]; the fields are those the controller reads
    and writes.  A stored [expiresAt] is unset or a valid date, kept as
    its milliseconds.  [isPasswordProtected] and [downloadedContent] are
    only read through [x || false] and [x || 0], so an absent field is
    [false] and [0]. *)
Record doc := mk {
  _id : string;
  path : string;
  name : string;
  type : string;
  size : Z;
  hasExpiry : bool;
  expiresAt : option Z;
  status : string;
  shortUrl : string;
  createdBy : string;
  password : option string;
  isPasswordProtected : bool;
  downloadedContent : Z
}.

Definition set_id (v : string) (d : doc) : doc :=
  mk v (path d) (name d) (type d) (size d) (hasExpiry d) (expiresAt d)
     (status d) (shortUrl d) (createdBy d) (password d)
     (isPasswordProtected d) (downloadedContent d).

Definition set_status (v : string) (d : doc) : doc :=
  mk (_id d) (path d) (name d) (type d) (size d) (hasExpiry d) (expiresAt d)
     v (shortUrl d) (createdBy d) (password d) (isPasswordProtected d)
     (downloadedContent d).

Definition set_expiresAt (v : option Z) (d : doc) : doc :=
  mk (_id d) (path d) (name d) (type d) (size d) (hasExpiry d) v
     (status d) (shortUrl d) (createdBy d) (password d)
     (isPasswordProtected d) (downloadedContent d).

Definition set_hasExpiry (v : bool) (d : doc) : doc :=
  mk (_id d) (path d) (name d) (type d) (size d) v (expiresAt d)
     (status d) (shortUrl d) (createdBy d) (password d)
     (isPasswordProtected d) (downloadedContent d).

Definition set_shortUrl (v : string) (d : doc) : doc :=
  mk (_id d) (path d) (name d) (type d) (size d) (hasExpiry d) (expiresAt d)
     (status d) v (createdBy d) (password d) (isPasswordProtected d)
     (downloadedContent d).

Definition set_password (v : option string) (d : doc) : doc :=
  mk (_id d) (path d) (name d) (type d) (size d) (hasExpiry d) (expiresAt d)
     (status d) (shortUrl d) (createdBy d) v (isPasswordProtected d)
     (downloadedContent d).

Definition set_isPasswordProtected (v : bool) (d : doc) : doc :=
  mk (_id d) (path d) (name d) (type d) (size d) (hasExpiry d) (expiresAt d)
     (status d) (shortUrl d) (createdBy d) (password d) v
     (downloadedContent d).

Definition set_downloadedContent (v : Z) (d : doc) : doc :=
  mk (_id d) (path d) (name d) (type d) (size d) (hasExpiry d) (expiresAt d)
     (status d) (shortUrl d) (createdBy d) (password d)
     (isPasswordProtected d) v.

End File.

Module User.

(** The counters of a [User] document; an absent counter reads as [0]
    through [x || 0], an absent [fullname] as the empty string. *)
Record doc := mk {
  _id : string;
  fullname : string;
  totalUploads : Z;
  totalDownloads : Z;
  imageCount : Z;
  videoCount : Z;
  documentCount : Z
}.

Definition set_totalUploads (v : Z) (u : doc) : doc :=
  mk (_id u) (fullname u) v (totalDownloads u) (imageCount u)
     (videoCount u) (documentCount u).

Definition set_totalDownloads (v : Z) (u : doc) : doc :=
  mk (_id u) (fullname u) (totalUploads u) v (imageCount u)
     (videoCount u) (documentCount u).

Definition set_imageCount (v : Z) (u : doc) : doc :=
  mk (_id u) (fullname u) (totalUploads u) (totalDownloads u) v
     (videoCount u) (documentCount u).

Definition set_videoCount (v : Z) (u : doc) : doc :=
  mk (_id u) (fullname u) (totalUploads u) (totalDownloads u)
     (imageCount u) v (documentCount u).

Definition set_documentCount (v : Z) (u : doc) : doc :=
  mk (_id u) (fullname u) (totalUploads u) (totalDownloads u)
     (imageCount u) (videoCount u) v.

End User.

(** ** The object store *)

Record S3Object := {
  Bucket : string;
  Key : string;
  Body : string;
  ContentType : string
}.

Inductive S3Command :=
| PutObjectCommand (o : S3Object)
| DeleteObjectCommand (bucket key : string).

Record GetObjectCommand := {
  get_Bucket : string;
  get_Key : string;
  ResponseContentDisposition : string
}.

(** ** The world a handler runs in *)

Record World := {
  files : list File.doc;        (* collection File, in natural order *)
  guestFiles : list File.doc;   (* collection GuestFile *)
  users : list User.doc;        (* collection User *)
  objects : list S3Object;      (* the bucket behind minioClient *)
  ticks : nat                   (* how many random values were drawn *)
}.

Definition with_files (c : list File.doc) (w : World) : World :=
  {| files := c; guestFiles := guestFiles w; users := users w;
     objects := objects w; ticks := ticks w |}.

Definition with_guestFiles (c : list File.doc) (w : World) : World :=
  {| files := files w; guestFiles := c; users := users w;
     objects := objects w; ticks := ticks w |}.

Definition with_users (c : list User.doc) (w : World) : World :=
  {| files := files w; guestFiles := guestFiles w; users := c;
     objects := objects w; ticks := ticks w |}.

Definition with_objects (c : list S3Object) (w : World) : World :=
  {| files := files w; guestFiles := guestFiles w; users := users w;
     objects := c; ticks := ticks w |}.

Definition with_ticks (n : nat) (w : World) : World :=
  {| files := files w; guestFiles := guestFiles w; users := users w;
     objects := objects w; ticks := n |}.

(** What lies outside the controller: the process environment, the
    libraries it calls and the behaviour of the storage endpoint. *)
Record Env := {
  AWS_BUCKET_NAME : string;     (* process.env.AWS_BUCKET_NAME *)
  S3_ENDPOINT : string;         (* process.env.S3_ENDPOINT || "" *)
  BASE_URL : string;            (* `${process.env.BASE_URL}` *)
  StringToNumber : string -> Js.num;       (* Number(s) on a string *)
  replace_whitespace : string -> string;   (* s.replace(/\s+/g, '_') *)
  extname : string -> string;              (* path.extname *)
  shortid_generate : nat -> string;        (* the n-th value drawn *)
  ObjectId : nat -> string;                (* the _id drawn at tick n *)
  bcrypt_hash : string -> nat -> string;   (* 10 rounds, salt of tick n *)
  bcrypt_compare : string -> string -> bool;
  s3_error : S3Command -> option string;   (* the error send() rejects with *)
  getSignedUrl : GetObjectCommand -> Z -> string + string;
                                         (* inl: the error it rejects with *)
  inexact_date : Z -> Js.value -> Js.date
    (* new Date(Date.now() + Number(v) * 3600000) where the double
       arithmetic rounds: fractional hours, products beyond 2^53 *)
}.

(** ** Responses *)

Inductive Json :=
| ErrorBody (error : string)
| ErrorDetail (error detail : string)
| MessageBody (message : string)
| MessageDetail (message detail : string)
| UploadedIds (message : string) (fileIds : list string)
| UploadedFiles (message : string) (docs : list File.doc)
| DownloadInfo (downloadUrl id name : string) (size : Z) (type path : string)
    (isPasswordProtected : bool) (expiresAt : option Z)
    (status shortUrl : string) (downloadedContent : Z) (uploadedBy : string)
| DownloadUrl (downloadUrl : string)
| UpdatedFiles (message : string) (docs : list File.doc)
| ShortUrl (shortUrl : string)
| ShareLink (fileId name : string) (size : Z) (type previewUrl : string)
    (isPasswordProtected : bool) (expiresAt : option Z) (status : string)
| DownloadCount (n : Z)
| VerifyFailure (error : string)
| VerifySuccess (message : string).

Record Response := { statusCode : Z; json : Json }.

Definition respond (c : Z) (b : Json) : Response :=
  {| statusCode := c; json := b |}.

(** The [downloadUrl] field of a body, when it has one. *)
Definition downloadUrl_of (b : Json) : option string :=
  match b with
  | DownloadInfo url _ _ _ _ _ _ _ _ _ _ _ => Some url
  | DownloadUrl url => Some url
  | _ => None
  end.

(** ** Handler bodies: state, early [return res...] and [throw] *)

Inductive outcome (A : Type) :=
| Next (a : A)
| Return (r : Response)
| Throw (msg : string).
Arguments Next {A} a.
Arguments Return {A} r.
Arguments Throw {A} msg.

Definition M (A : Type) : Type := World -> outcome A * World.

Definition ret {A} (a : A) : M A := fun w => (Next a, w).

Definition bind {A B} (m : M A) (k : A -> M B) : M B :=
  fun w =>
    match m w with
    | (Next a, w') => k a w'
    | (Return r, w') => (Return r, w')
    | (Throw e, w') => (Throw e, w')
    end.

Definition reply {A} (r : Response) : M A := fun w => (Return r, w).
Definition throw {A} (msg : string) : M A := fun w => (Throw msg, w).
Definition get : M World := fun w => (Next w, w).
Definition modify (f : World -> World) : M unit := fun w => (Next tt, f w).

Declare Scope handler_scope.
Delimit Scope handler_scope with handler.
Notation "x <- m ;; k" := (bind m (fun x => k))
  (at level 100, m at next level, right associativity) : handler_scope.
Notation "m ;; k" := (bind m (fun _ => k))
  (at level 100, right associativity) : handler_scope.
Notation "'when' c 'then' m ;; k" :=
  (bind (if c then m else ret tt) (fun _ => k))
  (at level 100, c at next level, m at next level, right associativity)
  : handler_scope.

(** [try { body } catch (error) { return on_error(error.message) }] *)
Definition try_catch (body : M Response) (on_error : string -> Response)
  : World -> Response * World :=
  fun w =>
    match body w with
    | (Next r, w') => (r, w')
    | (Return r, w') => (r, w')
    | (Throw e, w') => (on_error e, w')
    end.


(** ** Mongoose collections *)

(** A model is a collection of the world. *)
Record Model := {
  coll : World -> list File.doc;
  with_coll : list File.doc -> World -> World
}.

Definition FileModel : Model :=
  {| coll := files; with_coll := with_files |}.

Definition GuestFileModel : Model :=
  {| coll := guestFiles; with_coll := with_guestFiles |}.

Definition has_id (id : string) (d : File.doc) : bool :=
  (File._id d =? id)%string.

Definition has_shortUrl (url : string) (d : File.doc) : bool :=
  (File.shortUrl d =? url)%string.

(** The update a [save()] of a loaded document issues: the stored
    document with that [_id] takes the fields of [d]. *)
Fixpoint replace_doc (d : File.doc) (c : list File.doc) : list File.doc :=
  match c with
  | [] => []
  | x :: rest =>
      if has_id (File._id d) x then d :: rest else x :: replace_doc d rest
  end.

(** [deleteOne({ _id })]: the first document with that [_id] goes. *)
Fixpoint remove_doc (id : string) (c : list File.doc) : list File.doc :=
  match c with
  | [] => []
  | x :: rest => if has_id id x then rest else x :: remove_doc id rest
  end.

Fixpoint replace_user (u : User.doc) (c : list User.doc) : list User.doc :=
  match c with
  | [] => []
  | x :: rest =>
      if (User._id x =? User._id u)%string then u :: rest
      else x :: replace_user u rest
  end.

(** Modelled from the spec: the schema of [models/file.models.js] is not
    among the sources; [expiresAt] is an "optional timestamp" (spec, data
    model), a [Date] path, and Mongoose rejects the save of a document
    whose [Date] path was given an Invalid Date.  [valid_date] is that
    check, placed where the source saves. *)
Definition valid_date (d : Js.date) : M Z :=
  match d with
  | Js.InvalidDate => throw "File validation failed: expiresAt"
  | Js.Date ms => ret ms
  end.

Definition findById (m : Model) (id : string) : M (option File.doc) :=
  fun w => (Next (find (has_id id) (coll m w)), w).

Definition findOne (m : Model) (shortUrl : string) : M (option File.doc) :=
  fun w => (Next (find (has_shortUrl shortUrl) (coll m w)), w).

Definition find_all (m : Model) : M (list File.doc) :=
  fun w => (Next (coll m w), w).

(** [file.save()] on a document read from the collection. *)
Definition save (m : Model) (d : File.doc) : M unit :=
  modify (fun w => with_coll m (replace_doc d (coll m w)) w).

(** [new Model(obj).save()]: a new document enters the collection. *)
Definition insert (m : Model) (d : File.doc) : M unit :=
  modify (fun w => with_coll m (coll m w ++ [d]) w).

Definition deleteOne (m : Model) (id : string) : M unit :=
  modify (fun w => with_coll m (remove_doc id (coll m w)) w).

Definition User_findById (id : string) : M (option User.doc) :=
  fun w => (Next (find (fun u => (User._id u =? id)%string) (users w)), w).

Definition User_save (u : User.doc) : M unit :=
  modify (fun w => with_users (replace_user u (users w)) w).

(** One random value is drawn: the tick counter names it. *)
Definition draw : M nat :=
  fun w => (Next (ticks w), with_ticks (S (ticks w)) w).

(** ** Helpers of the controller *)

Definition dquote : string := String "034"%char EmptyString.

Definition buildKey (fileName : string) : string :=
  "file-share-app/" ++ fileName.

(** [s.replace(/\/$/, "")] *)
Fixpoint strip_trailing_slash (s : string) : string :=
  match s with
  | EmptyString => EmptyString
  | String c EmptyString => if (c =? "/")%char then EmptyString else s
  | String c rest => String c (strip_trailing_slash rest)
  end.

(** [x || dflt] on a string. *)
Definition or_else (x dflt : string) : string :=
  if (x =? "")%string then dflt else x.

(** [10 * 24 * 3600000], the default life of a share in milliseconds. *)
Definition ten_days : Z := 10 * 24 * 3600000.

(** ** Requests *)

Module Upload.

(** One entry of [req.files] (multer, memory storage). *)
Record file := {
  originalname : string;
  buffer : string;
  mimetype : string;
  size : Z
}.

(** [req.body] of the two upload routes. *)
Record body := {
  isPassword : Js.value;
  password : Js.value;
  hasExpiry : Js.value;
  expiresAt : Js.value;
  userId : string
}.

End Upload.

Section Controller.

Variable env : Env.

Definition publicObjectUrl (bucket key : string) : string :=
  let endpoint := strip_trailing_slash (S3_ENDPOINT env) in
  endpoint ++ "/" ++ bucket ++ "/" ++ key.

Definition Number (v : Js.value) : Js.num :=
  match v with
  | Js.undefined => Js.NaN
  | Js.null => Js.Fin 0
  | Js.boolean b => Js.Fin (if b then 1 else 0)
  | Js.number n => n
  | Js.str s => StringToNumber env s
  end.

(** [minioClient.send(command)] *)
Definition send (cmd : S3Command) : M unit :=
  match s3_error env cmd with
  | Some e => throw e
  | None =>
      modify (fun w =>
        match cmd with
        | PutObjectCommand o =>
            with_objects
              (filter (fun x => negb ((Bucket x =? Bucket o)%string
                                      && (Key x =? Key o)%string))
                      (objects w) ++ [o]) w
        | DeleteObjectCommand b k =>
            with_objects
              (filter (fun x => negb ((Bucket x =? b)%string
                                      && (Key x =? k)%string))
                      (objects w)) w
        end)
  end.

Definition signedDownloadUrl (bucket key fileName : string) (expiresInSec : Z)
  : M string :=
  let command :=
    {| get_Bucket := bucket; get_Key := key;
       ResponseContentDisposition :=
         "attachment; filename=" ++ dquote ++ fileName ++ dquote |} in
  match getSignedUrl env command expiresInSec with
  | inl e => throw e
  | inr url => ret url
  end.

(** [shortid.generate()] *)
Definition shortid : M string :=
  bind draw (fun n => ret (shortid_generate env n)).

(** [bcrypt.hash(password, 10)]: rejects unless the password is a string. *)
Definition hash (pw : Js.value) : M string :=
  match pw with
  | Js.str s => bind draw (fun n => ret (bcrypt_hash env s n))
  | _ => throw "Illegal arguments"
  end.

(** [bcrypt.compare(password, stored)]: rejects unless both are strings. *)
Definition compare (pw : Js.value) (stored : option string) : M bool :=
  match pw, stored with
  | Js.str s, Some h => ret (bcrypt_compare env s h)
  | _, _ => throw "Illegal arguments"
  end.

(** [new Date(Date.now() + Number(hours) * 3600000)].  NaN hours give an
    Invalid Date.  For whole hours whose milliseconds a double holds
    exactly, the sum with the clock reading is exact or beyond the range
    of dates, so TimeClip of the integer sum is the result.  A product
    beyond [2^53] is rounded but stays beyond [2^53] in magnitude, and a
    clock reading below [2^53 - max_time] cannot bring the sum back into
    the range of dates.  What is left (fractional hours, infinities, a
    rounded product with a clock reading far from the epoch) is double
    arithmetic the environment answers for. *)
Definition hours_from (now : Z) (hours : Js.value) : Js.date :=
  match Number hours with
  | Js.NaN => Js.InvalidDate
  | Js.Fin h =>
      if Js.safe (h * 3600000) then Js.time_clip (now + h * 3600000)
      else if Z.abs now <? 2 ^ 53 - Js.max_time then Js.InvalidDate
      else inexact_date env now hours
  | Js.Other _ => inexact_date env now hours
  end.

Local Open Scope handler_scope.

(** *** Upload (logged-in user) *)

(** The body of [for (const file of req.files)] up to [savedFiles.push]:
    it stores the blob and saves the record of one file. *)
Definition uploadFiles_each (now : Z) (b : Upload.body) (file : Upload.file)
  : M File.doc :=
  let originalClean := replace_whitespace env (Upload.originalname file) in
  uniqueSuffix <- shortid ;;
  let ext := or_else (extname env originalClean) "" in
  let finalFileName := originalClean ++ "_" ++ uniqueSuffix ++ ext in
  let key := buildKey finalFileName in
  send (PutObjectCommand
          {| Bucket := AWS_BUCKET_NAME env; Key := key;
             Body := Upload.buffer file;
             ContentType := Upload.mimetype file |}) ;;
  let fileUrl := publicObjectUrl (AWS_BUCKET_NAME env) key in
  shortCode <- shortid ;;
  let obj_hasExpiry := Js.strict_eq_str (Upload.hasExpiry b) "true" in
  let obj_expiresAt :=
    if Js.strict_eq_str (Upload.hasExpiry b) "true"
    then hours_from now (Upload.expiresAt b)
    else Js.time_clip (now + 10 * 24 * 3600000) in
  protection <-
    (if Js.strict_eq_str (Upload.isPassword b) "true"
     then h <- hash (Upload.password b) ;; ret (Some h, true)
     else ret (None, false)) ;;
  id <- draw ;;
  expires <- valid_date obj_expiresAt ;;
  let savedFile :=
    File.mk (ObjectId env id) fileUrl finalFileName (Upload.mimetype file)
            (Upload.size file) obj_hasExpiry (Some expires) "active"
            ("/f/" ++ shortCode) (Upload.userId b)
            (fst protection) (snd protection) 0 in
  insert FileModel savedFile ;;
  ret savedFile.

(** [for (const file of req.files)], with the local [savedFiles] and the
    in-memory [user] threaded through. *)
Fixpoint uploadFiles_loop (now : Z) (b : Upload.body)
    (req_files : list Upload.file)
    (savedFiles : list File.doc) (user : User.doc)
  : M (list File.doc * User.doc) :=
  match req_files with
  | [] => ret (savedFiles, user)
  | file :: rest =>
      savedFile <- uploadFiles_each now b file ;;
      let user := User.set_totalUploads (User.totalUploads user + 1) user in
      let user :=
        if prefix "image/" (Upload.mimetype file)
        then User.set_imageCount (User.imageCount user + 1) user
        else if prefix "video/" (Upload.mimetype file)
        then User.set_videoCount (User.videoCount user + 1) user
        else if prefix "application/" (Upload.mimetype file)
        then User.set_documentCount (User.documentCount user + 1) user
        else user in
      uploadFiles_loop now b rest (savedFiles ++ [savedFile]) user
  end.

Definition uploadFiles (now : Z) (req_files : list Upload.file)
    (b : Upload.body) : World -> Response * World :=
  fun w =>
    if (List.length req_files =? 0)%nat
    then (respond 400 (ErrorBody "No files uploaded"), w)
    else
      try_catch
        (user <- User_findById (Upload.userId b) ;;
         match user with
         | None => reply (respond 404 (ErrorBody "User not found"))
         | Some user =>
             r <- uploadFiles_loop now b req_files [] user ;;
             User_save (snd r) ;;
             ret (respond 201
                    (UploadedIds "Files uploaded successfully"
                                 (map File._id (fst r))))
         end)
        (fun e => respond 500 (MessageDetail "File upload failed" e))
        w.

(** *** Upload (guest user) *)

Definition uploadFilesGuest_each (now : Z) (b : Upload.body)
    (file : Upload.file) : M File.doc :=
  let originalClean := replace_whitespace env (Upload.originalname file) in
  uniqueSuffix <- shortid ;;
  let ext := or_else (extname env originalClean) "" in
  let finalFileName := originalClean ++ "_" ++ uniqueSuffix ++ ext in
  let key := buildKey finalFileName in
  send (PutObjectCommand
          {| Bucket := AWS_BUCKET_NAME env; Key := key;
             Body := Upload.buffer file;
             ContentType := Upload.mimetype file |}) ;;
  let fileUrl := publicObjectUrl (AWS_BUCKET_NAME env) key in
  shortCode <- shortid ;;
  username <- shortid ;;
  let obj_hasExpiry := Js.strict_eq_str (Upload.hasExpiry b) "true" in
  let obj_expiresAt :=
    if Js.strict_eq_str (Upload.hasExpiry b) "true"
    then hours_from now (Upload.expiresAt b)
    else Js.time_clip (now + 10 * 24 * 3600000) in
  protection <-
    (if Js.strict_eq_str (Upload.isPassword b) "true"
     then h <- hash (Upload.password b) ;; ret (Some h, true)
     else ret (None, false)) ;;
  id <- draw ;;
  expires <- valid_date obj_expiresAt ;;
  let savedFile :=
    File.mk (ObjectId env id) fileUrl finalFileName (Upload.mimetype file)
            (Upload.size file) obj_hasExpiry (Some expires) "active"
            ("/g/" ++ shortCode) ("guest_" ++ username)
            (fst protection) (snd protection) 0 in
  insert GuestFileModel savedFile ;;
  ret savedFile.

Fixpoint uploadFilesGuest_loop (now : Z) (b : Upload.body)
    (req_files : list Upload.file) (savedFiles : list File.doc)
  : M (list File.doc) :=
  match req_files with
  | [] => ret savedFiles
  | file :: rest =>
      savedFile <- uploadFilesGuest_each now b file ;;
      uploadFilesGuest_loop now b rest (savedFiles ++ [savedFile])
  end.

Definition uploadFilesGuest (now : Z) (req_files : list Upload.file)
    (b : Upload.body) : World -> Response * World :=
  fun w =>
    if (List.length req_files =? 0)%nat
    then (respond 400 (ErrorBody "No files uploaded"), w)
    else
      try_catch
        (savedFiles <- uploadFilesGuest_loop now b req_files [] ;;
         ret (respond 201
                (UploadedFiles "Files uploaded successfully" savedFiles)))
        (fun e => respond 500 (MessageDetail "File upload failed" e))
        w.

(** *** Download info (user short link) *)

Definition downloadInfo (now : Z) (shortCode : string)
  : World -> Response * World :=
  try_catch
    (file <- findOne FileModel ("/f/" ++ shortCode) ;;
     match file with
     | None => reply (respond 404 (ErrorBody "File not found"))
     | Some file =>
         when negb (File.status file =? "active")%string
         then reply (respond 403
                (ErrorBody "This file is not available for download")) ;;
         if Js.before_now (File.expiresAt file) now
         then
           let file := File.set_status "expired" file in
           save FileModel file ;;
           reply (respond 410 (ErrorBody "This file has expired"))
         else
           let key := buildKey (File.name file) in
           downloadUrl <- signedDownloadUrl (AWS_BUCKET_NAME env) key
                            (File.name file) (24 * 60 * 60) ;;
           let file :=
             File.set_downloadedContent (File.downloadedContent file + 1)
                                        file in
           save FileModel file ;;
           user <- User_findById (File.createdBy file) ;;
           user <- match user with
                   | Some u =>
                       let u := User.set_totalDownloads
                                  (User.totalDownloads u + 1) u in
                       User_save u ;; ret (Some u)
                   | None => ret None
                   end ;;
           ret (respond 200
                  (DownloadInfo downloadUrl (File._id file) (File.name file)
                     (File.size file) (or_else (File.type file) "file")
                     (File.path file) (File.isPasswordProtected file)
                     (File.expiresAt file)
                     (or_else (File.status file) "active")
                     (File.shortUrl file) (File.downloadedContent file)
                     (or_else (match user with
                               | Some u => User.fullname u
                               | None => ""
                               end) "Unknown")))
     end)
    (fun e => respond 500 (ErrorDetail "Internal Server Error" e)).

(** *** Guest download info *)

Definition guestDownloadInfo (now : Z) (shortCode : string)
  : World -> Response * World :=
  try_catch
    (file <- findOne GuestFileModel ("/g/" ++ shortCode) ;;
     match file with
     | None => reply (respond 404 (ErrorBody "File not found"))
     | Some file =>
         when negb (File.status file =? "active")%string
         then reply (respond 403
                (ErrorBody "This file is not available for download")) ;;
         if Js.before_now (File.expiresAt file) now
         then
           let file := File.set_status "expired" file in
           save GuestFileModel file ;;
           reply (respond 410 (ErrorBody "This file has expired"))
         else
           let key := buildKey (File.name file) in
           downloadUrl <- signedDownloadUrl (AWS_BUCKET_NAME env) key
                            (File.name file) (24 * 60 * 60) ;;
           let file :=
             File.set_downloadedContent (File.downloadedContent file + 1)
                                        file in
           save GuestFileModel file ;;
           ret (respond 200
                  (DownloadInfo downloadUrl (File._id file) (File.name file)
                     (File.size file) (or_else (File.type file) "file")
                     (File.path file) (File.isPasswordProtected file)
                     (File.expiresAt file)
                     (or_else (File.status file) "active")
                     (File.shortUrl file) (File.downloadedContent file)
                     (File.createdBy file)))
     end)
    (fun e => respond 500 (ErrorDetail "Internal Server Error" e)).

(** *** Download by fileId *)

Definition downloadFile (now : Z) (fileId : string) (password : Js.value)
  : World -> Response * World :=
  try_catch
    (file <- findById FileModel fileId ;;
     match file with
     | None => reply (respond 404 (ErrorBody "File not found"))
     | Some file =>
         when negb (File.status file =? "active")%string
         then reply (respond 403
                (ErrorBody "This file is not available for download")) ;;
         when Js.before_now (File.expiresAt file) now
         then reply (respond 410 (ErrorBody "This file has expired")) ;;
         when File.isPasswordProtected file
         then (when negb (Js.truthy password)
               then reply (respond 401 (ErrorBody "Password required")) ;;
               isMatch <- compare password (File.password file) ;;
               when negb isMatch
               then reply (respond 403 (ErrorBody "Incorrect password")) ;;
               ret tt) ;;
         let key := buildKey (File.name file) in
         downloadUrl <- signedDownloadUrl (AWS_BUCKET_NAME env) key
                          (File.name file) (24 * 60 * 60) ;;
         let file :=
           File.set_downloadedContent (File.downloadedContent file + 1)
                                      file in
         save FileModel file ;;
         user <- User_findById (File.createdBy file) ;;
         match user with
         | Some u =>
             User_save (User.set_totalDownloads (User.totalDownloads u + 1) u)
         | None => ret tt
         end ;;
         ret (respond 200 (DownloadUrl downloadUrl))
     end)
    (fun e => respond 500 (ErrorDetail "Internal Server Error" e)).

(** *** Delete file *)

Definition deleteFile (fileId : string) : World -> Response * World :=
  try_catch
    (file <- findById FileModel fileId ;;
     match file with
     | None => reply (respond 404 (ErrorBody "File not found"))
     | Some file =>
         when (File.status file =? "deleted")%string
         then reply (respond 400 (ErrorBody "File already deleted")) ;;
         let key := buildKey (File.name file) in
         send (DeleteObjectCommand (AWS_BUCKET_NAME env) key) ;;
         deleteOne FileModel fileId ;;
         ret (respond 200 (MessageBody "File deleted successfully"))
     end)
    (fun e => respond 500 (ErrorDetail "Internal Server Error" e)).

(** *** Status, expiry and password updates *)

Definition updateFileStatus (fileId : string) (status : Js.value)
  : World -> Response * World :=
  try_catch
    (match status with
     | Js.str s =>
         when negb ((s =? "active")%string || (s =? "inactive")%string)
         then reply (respond 400 (ErrorBody "Invalid status")) ;;
         file <- findById FileModel fileId ;;
         match file with
         | None => reply (respond 404 (ErrorBody "File not found"))
         | Some file =>
             when (File.status file =? s)%string
             then reply (respond 400
                           (ErrorBody "File already has this status")) ;;
             save FileModel (File.set_status s file) ;;
             ret (respond 200 (MessageBody "File status updated successfully"))
         end
     | _ => reply (respond 400 (ErrorBody "Invalid status"))
     end)
    (fun _ => respond 500 (ErrorBody "Internal Server Error")).

Definition updateFileExpiry (now : Z) (fileId : string) (expiresAt : Js.value)
  : World -> Response * World :=
  try_catch
    (file <- findById FileModel fileId ;;
     match file with
     | None => reply (respond 404 (ErrorBody "File not found"))
     | Some file =>
         file <- (if Js.truthy expiresAt
                  then ms <- valid_date (hours_from now expiresAt) ;;
                       ret (File.set_expiresAt (Some ms) file)
                  else ret file) ;;
         save FileModel file ;;
         ret (respond 200 (MessageBody "File expiry updated successfully"))
     end)
    (fun _ => respond 500 (ErrorBody "Internal Server Error")).

(** The body of [for (const file of files)] in [updateAllFileExpiry]. *)
Fixpoint updateAllFileExpiry_loop (now : Z) (found : list File.doc)
    (updatedFiles : list File.doc) : M (list File.doc) :=
  match found with
  | [] => ret updatedFiles
  | file :: rest =>
      if (File.status file =? "deleted")%string
      then updateAllFileExpiry_loop now rest updatedFiles
      else
        let file :=
          if Js.before_now (File.expiresAt file) now
          then File.set_hasExpiry true (File.set_status "expired" file)
          else File.set_hasExpiry true
                 (File.set_expiresAt
                    (Some (now + 10 * 24 * 60 * 60 * 1000)) file) in
        save FileModel file ;;
        updateAllFileExpiry_loop now rest (updatedFiles ++ [file])
  end.

Definition updateAllFileExpiry (now : Z) : World -> Response * World :=
  try_catch
    (found <- find_all FileModel ;;
     when (List.length found =? 0)%nat
     then reply (respond 404 (ErrorBody "No files found")) ;;
     updatedFiles <- updateAllFileExpiry_loop now found [] ;;
     ret (respond 200
            (UpdatedFiles "All file expiries updated successfully"
                          updatedFiles)))
    (fun _ => respond 500 (ErrorBody "Internal Server Error")).

Definition updateFilePassword (fileId : string) (newPassword : Js.value)
  : World -> Response * World :=
  try_catch
    (file <- findById FileModel fileId ;;
     match file with
     | None => reply (respond 404 (ErrorBody "File not found"))
     | Some file =>
         when negb (Js.truthy newPassword)
         then reply (respond 400 (ErrorBody "New password is required")) ;;
         h <- hash newPassword ;;
         save FileModel (File.set_password (Some h) file) ;;
         ret (respond 200 (MessageBody "File password updated successfully"))
     end)
    (fun _ => respond 500 (ErrorBody "Internal Server Error")).

(** *** Short links *)

Definition generateShareShortenLink (fileId : string)
  : World -> Response * World :=
  try_catch
    (file <- findById FileModel fileId ;;
     match file with
     | None => reply (respond 404 (ErrorBody "File not found"))
     | Some file =>
         shortCode <- shortid ;;
         let file :=
           File.set_shortUrl (BASE_URL env ++ "/f/" ++ shortCode) file in
         save FileModel file ;;
         ret (respond 200 (ShortUrl (File.shortUrl file)))
     end)
    (fun _ => respond 500 (ErrorBody "Internal Server Error")).

Definition getDownloadCount (fileId : string) : World -> Response * World :=
  try_catch
    (file <- findById FileModel fileId ;;
     match file with
     | None => reply (respond 404 (ErrorBody "File not found"))
     | Some file => ret (respond 200 (DownloadCount (File.downloadedContent file)))
     end)
    (fun _ => respond 500 (ErrorBody "Internal Server Error")).

Definition resolveShareLink (now : Z) (code : string)
  : World -> Response * World :=
  try_catch
    (let shortUrl := BASE_URL env ++ "/f/" ++ code in
     file <- findOne FileModel shortUrl ;;
     match file with
     | None => reply (respond 404 (ErrorBody "Invalid or expired link"))
     | Some file =>
         if Js.before_now (File.expiresAt file) now
         then
           save FileModel (File.set_status "expired" file) ;;
           reply (respond 410 (ErrorBody "This file has expired."))
         else
           ret (respond 200
                  (ShareLink (File._id file) (File.name file) (File.size file)
                     (or_else (File.type file) "file") (File.path file)
                     (File.isPasswordProtected file) (File.expiresAt file)
                     (or_else (File.status file) "active")))
     end)
    (fun _ => respond 500 (ErrorBody "Internal Server Error")).

(** *** Password verification *)

Definition verifyFilePassword (shortCode : string) (password : Js.value)
  : World -> Response * World :=
  try_catch
    (file <- findOne FileModel ("/f/" ++ shortCode) ;;
     match file with
     | None =>
         reply (respond 400 (VerifyFailure "File not protected or not found"))
     | Some file =>
         when negb (File.isPasswordProtected file)
         then reply (respond 400
                       (VerifyFailure "File not protected or not found")) ;;
         isMatch <- compare password (File.password file) ;;
         when negb isMatch
         then reply (respond 401 (VerifyFailure "Incorrect password")) ;;
         ret (respond 200 (VerifySuccess "Password verified"))
     end)
    (fun _ => respond 500 (VerifyFailure "Server error")).

Definition verifyGuestFilePassword (shortCode : string) (password : Js.value)
  : World -> Response * World :=
  try_catch
    (file <- findOne GuestFileModel ("/g/" ++ shortCode) ;;
     match file with
     | None =>
         reply (respond 400 (VerifyFailure "File not protected or not found"))
     | Some file =>
         when negb (File.isPasswordProtected file)
         then reply (respond 400
                       (VerifyFailure "File not protected or not found")) ;;
         isMatch <- compare password (File.password file) ;;
         when negb isMatch
         then reply (respond 401 (VerifyFailure "Incorrect password")) ;;
         ret (respond 200 (VerifySuccess "Password verified"))
     end)
    (fun _ => respond 500 (VerifyFailure "Server error")).

End Controller.

(** ** The two kinds of share and their short-code routes *)

Inductive Kind := UserShare | GuestShare.

Definition model_of (k : Kind) : Model :=
  match k with
  | UserShare => FileModel
  | GuestShare => GuestFileModel
  end.

(** The prefix of the stored [shortUrl] the route of a kind looks up. *)
Definition namespace (k : Kind) : string :=
  match k with
  | UserShare => "/f/"
  | GuestShare => "/g/"
  end.

(** [GET] by short code: [downloadInfo] for user shares,
    [guestDownloadInfo] for guest shares. *)
Definition resolve_short_code (env : Env) (k : Kind)
  : Z -> string -> World -> Response * World :=
  match k with
  | UserShare => downloadInfo env
  | GuestShare => guestDownloadInfo env
  end.

Definition verify_short_code (env : Env) (k : Kind)
  : string -> Js.value -> World -> Response * World :=
  match k with
  | UserShare => verifyFilePassword env
  | GuestShare => verifyGuestFilePassword env
  end.

Definition upload (env : Env) (k : Kind)
  : Z -> list Upload.file -> Upload.body -> World -> Response * World :=
  match k with
  | UserShare => uploadFiles env
  | GuestShare => uploadFilesGuest env
  end.

(** The document a short code of a kind stands for. *)
Definition lookup (k : Kind) (shortCode : string) (w : World)
  : option File.doc :=
  find (has_shortUrl (namespace k ++ shortCode)) (coll (model_of k) w).

(** The command [signedDownloadUrl] presigns for a document. *)
Definition download_command (env : Env) (d : File.doc) : GetObjectCommand :=
  {| get_Bucket := AWS_BUCKET_NAME env;
     get_Key := buildKey (File.name d);
     ResponseContentDisposition :=
       "attachment; filename=" ++ dquote ++ File.name d ++ dquote |}.

(** A response that carries the signed URL [url]. *)
Definition issues (url : string) (r : Response) : Prop :=
  statusCode r = 200 /\ downloadUrl_of (json r) = Some url.

(** Expiry as the code tests it: set and strictly before the clock. *)
Definition past (now : Z) (d : File.doc) : Prop :=
  exists t, File.expiresAt d = Some t /\ t < now.

(** Downloadable as the code decides it: active, and [expiresAt] unset
    or not before the clock. *)
Definition downloadable (now : Z) (d : File.doc) : Prop :=
  File.status d = "active" /\
  (File.expiresAt d = None \/ exists t, File.expiresAt d = Some t /\ now <= t).

(** Downloadable as the data model words it: active, and [expiresAt]
    unset or strictly in the future. *)
Definition downloadable_strictly (now : Z) (d : File.doc) : Prop :=
  File.status d = "active" /\
  (File.expiresAt d = None \/ exists t, File.expiresAt d = Some t /\ now < t).

(** ** A sample environment and sample stores *)

Fixpoint tally (n : nat) : string :=
  match n with
  | O => ""
  | S k => "i" ++ tally k
  end.

(** An endpoint that accepts every command. *)
Definition sample_env : Env :=
  {| AWS_BUCKET_NAME := "pastebox";
     S3_ENDPOINT := "http://localhost:9000/";
     BASE_URL := "https://pastebox.app";
     StringToNumber := fun s =>
       if (s =? "48")%string then Js.Fin 48 else Js.NaN;
     replace_whitespace := fun s => s;
     extname := fun _ => ".pdf";
     shortid_generate := fun n => "k" ++ tally n;
     ObjectId := fun n => "oid" ++ tally n;
     bcrypt_hash := fun s n => "$2a$10$" ++ tally n ++ "$" ++ s;
     bcrypt_compare := fun s h => (h =? "$2a$10$$" ++ s)%string;
     s3_error := fun _ => None;
     getSignedUrl := fun c _ =>
       inr ("http://localhost:9000/" ++ get_Bucket c ++ "/" ++ get_Key c
            ++ "?X-Amz-Signature=5f");
     inexact_date := fun _ _ => Js.InvalidDate |}.

(** An endpoint that is down: every command and every presign fails. *)
Definition offline_env : Env :=
  {| AWS_BUCKET_NAME := "pastebox";
     S3_ENDPOINT := "http://localhost:9000/";
     BASE_URL := "https://pastebox.app";
     StringToNumber := fun s =>
       if (s =? "48")%string then Js.Fin 48 else Js.NaN;
     replace_whitespace := fun s => s;
     extname := fun _ => ".pdf";
     shortid_generate := fun n => "k" ++ tally n;
     ObjectId := fun n => "oid" ++ tally n;
     bcrypt_hash := fun s n => "$2a$10$" ++ tally n ++ "$" ++ s;
     bcrypt_compare := fun s h => (h =? "$2a$10$$" ++ s)%string;
     s3_error := fun _ => Some "connect ECONNREFUSED";
     getSignedUrl := fun _ _ => inl "connect ECONNREFUSED";
     inexact_date := fun _ _ => Js.InvalidDate |}.

(** A share uploaded at time [0] with the default life, protected by the
    password "secret". *)
Definition report : File.doc :=
  File.mk "f1" "http://localhost:9000/pastebox/file-share-app/report.pdf"
          "report.pdf" "application/pdf" 500000 false (Some 864000000)
          "active" "/f/abc" "u1" (Some "$2a$10$$secret") true 0.

(** An unprotected share of the same owner. *)
Definition notes : File.doc :=
  File.mk "f2" "http://localhost:9000/pastebox/file-share-app/notes.txt"
          "notes.txt" "text/plain" 120 false (Some 864000000)
          "active" "/f/xyz" "u1" None false 3.

(** A share already marked deleted. *)
Definition gone : File.doc :=
  File.mk "f3" "http://localhost:9000/pastebox/file-share-app/old.txt"
          "old.txt" "text/plain" 7 true (Some 5)
          "deleted" "/f/old" "u1" None false 0.

(** A guest share. *)
Definition guest_report : File.doc :=
  File.mk "g1" "http://localhost:9000/pastebox/file-share-app/g.pdf"
          "g.pdf" "application/pdf" 42 true (Some 172800000)
          "active" "/g/abc" "guest_k" (Some "$2a$10$$secret") true 0.

Definition alice : User.doc := User.mk "u1" "Alice" 2 0 0 0 1.

Definition report_blob : S3Object :=
  {| Bucket := "pastebox"; Key := "file-share-app/report.pdf";
     Body := "%PDF-1.7"; ContentType := "application/pdf" |}.

Definition notes_blob : S3Object :=
  {| Bucket := "pastebox"; Key := "file-share-app/notes.txt";
     Body := "to do"; ContentType := "text/plain" |}.

Definition sample_world : World :=
  {| files := [report; notes; gone];
     guestFiles := [guest_report];
     users := [alice];
     objects := [report_blob; notes_blob];
     ticks := 0 |}.

(** ** The bulk sweep, in the words of its description *)

Definition live (d : File.doc) : bool :=
  negb (File.status d =? "deleted")%string.


(** The same as a function, for the loop of the handler. *)
Definition swept (now : Z) (d : File.doc) : File.doc :=
  if live d then
    if Js.before_now (File.expiresAt d) now
    then File.set_hasExpiry true (File.set_status "expired" d)
    else File.set_hasExpiry true
           (File.set_expiresAt (Some (now + ten_days)) d)
  else d.

(** ** Uploads, in the words of their description *)

Definition upload_each (env : Env) (k : Kind)
  : Z -> Upload.body -> Upload.file -> M File.doc :=
  match k with
  | UserShare => uploadFiles_each env
  | GuestShare => uploadFilesGuest_each env
  end.

(** The expiry a record created at [now] from the body [b] is to have:
    240 hours from [now] unless [hasExpiry] is ['true'], else the supplied
    number of hours from [now], for whole hours whose milliseconds a
    double holds exactly. *)
Definition expires_as_uploaded (env : Env) (now : Z) (b : Upload.body)
    (d : File.doc) : Prop :=
  (Js.strict_eq_str (Upload.hasExpiry b) "true" = false ->
   File.expiresAt d = Some (now + 240 * 3600000)) /\
  (forall h,
     Js.strict_eq_str (Upload.hasExpiry b) "true" = true ->
     Number env (Upload.expiresAt b) = Js.Fin h ->
     Js.safe (h * 3600000) = true ->
     File.expiresAt d = Some (now + h * 3600000)).

(** An upload at [now] nothing stands against: the object store takes
    every command, a requested password is a string, and the expiry is a
    valid date: [now] plus 240 hours, or [now] plus the requested whole
    hours, lies within [Js.max_time] of the epoch. *)
Definition accepted (env : Env) (now : Z) (b : Upload.body) : Prop :=
  (forall cmd, s3_error env cmd = None) /\
  (Js.strict_eq_str (Upload.isPassword b) "true" = true ->
   exists s, Upload.password b = Js.str s) /\
  (Js.strict_eq_str (Upload.hasExpiry b) "true" = true ->
   exists h, Number env (Upload.expiresAt b) = Js.Fin h /\
             Js.safe (h * 3600000) = true /\
             Js.valid_time (now + h * 3600000)) /\
  (Js.strict_eq_str (Upload.hasExpiry b) "true" = false ->
   Js.valid_time (now + 240 * 3600000)).

Definition scan : Upload.file :=
  {| Upload.originalname := "scan.pdf"; Upload.buffer := "%PDF-1.4";
     Upload.mimetype := "application/pdf"; Upload.size := 8 |}.

Definition default_body : Upload.body :=
  {| Upload.isPassword := Js.str "true"; Upload.password := Js.str "secret";
     Upload.hasExpiry := Js.str "false"; Upload.expiresAt := Js.undefined;
     Upload.userId := "u1" |}.

Definition two_days_body : Upload.body :=
  {| Upload.isPassword := Js.str "false"; Upload.password := Js.undefined;
     Upload.hasExpiry := Js.str "true"; Upload.expiresAt := Js.str "48";
     Upload.userId := "u1" |}.

(** ** Further notions *)

(** Two records that differ at most in [downloadedContent]. *)
Definition same_but_count (d d' : File.doc) : Prop :=
  File.set_downloadedContent 0 d = File.set_downloadedContent 0 d'.

(** The bucket holds a blob for the record [d]. *)
Definition has_blob (env : Env) (d : File.doc) (w : World) : Prop :=
  exists o, In o (objects w) /\ Bucket o = AWS_BUCKET_NAME env /\
            Key o = buildKey (File.name d).

(** What every record made by an upload of kind [k] from the body [b]
    looks like. *)
Definition fresh_share (env : Env) (k : Kind) (b : Upload.body)
    (d : File.doc) : Prop :=
  File.status d = "active" /\
  File.downloadedContent d = 0 /\
  (exists code, File.shortUrl d = namespace k ++ code) /\
  File.hasExpiry d = Js.strict_eq_str (Upload.hasExpiry b) "true" /\
  File.isPasswordProtected d = Js.strict_eq_str (Upload.isPassword b) "true" /\
  (File.isPasswordProtected d = true <-> File.password d <> None) /\
  File.path d
    = publicObjectUrl env (AWS_BUCKET_NAME env) (buildKey (File.name d)) /\
  (k = UserShare -> File.createdBy d = Upload.userId b) /\
  (k = GuestShare -> exists n, File.createdBy d = "guest_" ++ n).

(** How many of the files have a mimetype starting with [p]. *)
Definition count_type (p : string) (fs : list Upload.file) : Z :=
  Z.of_nat
    (List.length (filter (fun f => prefix p (Upload.mimetype f)) fs)).

(** ** The QR code of a share *)



(** ** The controller as one step function *)

(** A request to one of the handlers the controller exports (those
    embedded above), with the values the handler takes from [req]. *)
Inductive Request :=
| UploadFiles (req_files : list Upload.file) (b : Upload.body)
| UploadFilesGuest (req_files : list Upload.file) (b : Upload.body)
| DownloadInfoOf (shortCode : string)
| GuestDownloadInfo (shortCode : string)
| DownloadFile (fileId : string) (password : Js.value)
| DeleteFile (fileId : string)
| UpdateFileStatus (fileId : string) (status : Js.value)
| UpdateFileExpiry (fileId : string) (expiresAt : Js.value)
| UpdateAllFileExpiry
| UpdateFilePassword (fileId : string) (newPassword : Js.value)
| GenerateShareShortenLink (fileId : string)
| GetDownloadCount (fileId : string)
| ResolveShareLink (code : string)
| VerifyFilePassword (shortCode : string) (password : Js.value)
| VerifyGuestFilePassword (shortCode : string) (password : Js.value).

Definition handle (env : Env) (now : Z) (req : Request)
  : World -> Response * World :=
  match req with
  | UploadFiles fs b => uploadFiles env now fs b
  | UploadFilesGuest fs b => uploadFilesGuest env now fs b
  | DownloadInfoOf c => downloadInfo env now c
  | GuestDownloadInfo c => guestDownloadInfo env now c
  | DownloadFile id pw => downloadFile env now id pw
  | DeleteFile id => deleteFile env id
  | UpdateFileStatus id s => updateFileStatus id s
  | UpdateFileExpiry id v => updateFileExpiry env now id v
  | UpdateAllFileExpiry => updateAllFileExpiry now
  | UpdateFilePassword id pw => updateFilePassword env id pw
  | GenerateShareShortenLink id => generateShareShortenLink env id
  | GetDownloadCount id => getDownloadCount id
  | ResolveShareLink c => resolveShareLink env now c
  | VerifyFilePassword c pw => verifyFilePassword env c pw
  | VerifyGuestFilePassword c pw => verifyGuestFilePassword env c pw
  end.

(** The requests of the guest routes. *)
Definition guest_route (req : Request) : bool :=
  match req with
  | UploadFilesGuest _ _ | GuestDownloadInfo _
  | VerifyGuestFilePassword _ _ => true
  | _ => false
  end.

(** [x] is a later state of the record [d]. *)
Definition descends (d x : File.doc) : Prop :=
  File._id x = File._id d /\
  File.downloadedContent d <= File.downloadedContent x /\
  (File.status x = File.status d \/ File.status x = "expired" \/
   File.status x = "active" \/ File.status x = "inactive").

(** [x] is a record as an upload creates it. *)
Definition newly_created (x : File.doc) : Prop :=
  File.downloadedContent x = 0 /\ File.status x = "active".

(** Every record of [c'] is a later state of a record of [c] or newly
    created. *)
Definition evolves (c c' : list File.doc) : Prop :=
  forall x, In x c' -> (exists d, In d c /\ descends d x) \/ newly_created x.

(** A store nothing was ever uploaded to. *)
Definition empty_world : World :=
  {| files := []; guestFiles := []; users := []; objects := []; ticks := 0 |}.

(** The world after a sequence of requests, each at its clock reading. *)
Fixpoint run (env : Env) (trace : list (Z * Request)) (w : World) : World :=
  match trace with
  | [] => w
  | (now, req) :: rest => run env rest (snd (handle env now req w))
  end.

(** * Properties *)

Section Properties.

Variable env : Env.

Local Arguments String.append : simpl never.
Local Arguments Js.time_clip : simpl never.
Local Arguments hours_from : simpl never.

(** ** Collections *)

Lemma has_id_true id d : has_id id d = true <-> File._id d = id.
Proof. unfold has_id. apply String.eqb_eq. Qed.

Lemma find_has_id id c d : find (has_id id) c = Some d -> File._id d = id.
Proof.
  intro H. apply find_some in H. destruct H as [_ H].
  now apply has_id_true.
Qed.

Lemma find_has_shortUrl url c d :
  find (has_shortUrl url) c = Some d -> File.shortUrl d = url.
Proof.
  intro H. apply find_some in H. destruct H as [_ H].
  now apply String.eqb_eq.
Qed.

(** ** The four outcomes of a short-code resolution *)

Ltac run :=
  unfold try_catch, bind, findOne, findById, find_all, reply, ret, throw,
         save, deleteOne, modify, User_findById, User_save,
         signedDownloadUrl, shortid, draw; simpl.

Lemma resolve_not_found k now code w :
  lookup k code w = None ->
  resolve_short_code env k now code w =
    (respond 404 (ErrorBody "File not found"), w).
Proof.
  unfold lookup.
  destruct k; intro Hf; unfold resolve_short_code, downloadInfo,
    guestDownloadInfo; run; simpl in Hf; now rewrite Hf.
Qed.

Lemma resolve_unavailable k now code w d :
  lookup k code w = Some d ->
  File.status d <> "active" ->
  resolve_short_code env k now code w =
    (respond 403 (ErrorBody "This file is not available for download"), w).
Proof.
  unfold lookup. intros Hf Hs. apply String.eqb_neq in Hs.
  destruct k; unfold resolve_short_code, downloadInfo, guestDownloadInfo;
    run; simpl in Hf; rewrite Hf, Hs; reflexivity.
Qed.

Lemma resolve_expired k now code w d :
  lookup k code w = Some d ->
  File.status d = "active" ->
  Js.before_now (File.expiresAt d) now = true ->
  resolve_short_code env k now code w =
    (respond 410 (ErrorBody "This file has expired"),
     with_coll (model_of k)
       (replace_doc (File.set_status "expired" d) (coll (model_of k) w)) w).
Proof.
  unfold lookup. intros Hf Hs He. apply String.eqb_eq in Hs.
  destruct k; unfold resolve_short_code, downloadInfo, guestDownloadInfo;
    run; simpl in Hf; rewrite Hf, Hs; simpl; rewrite He; reflexivity.
Qed.

Lemma resolve_ok k now code w d url :
  lookup k code w = Some d ->
  File.status d = "active" ->
  Js.before_now (File.expiresAt d) now = false ->
  getSignedUrl env (download_command env d) (24 * 60 * 60) = inr url ->
  issues url (fst (resolve_short_code env k now code w)) /\
  coll (model_of k) (snd (resolve_short_code env k now code w)) =
    replace_doc (File.set_downloadedContent (File.downloadedContent d + 1) d)
                (coll (model_of k) w).
Proof.
  unfold lookup. intros Hf Hs He Hu. apply String.eqb_eq in Hs.
  unfold download_command in Hu. change (24 * 60 * 60) with 86400 in Hu.
  destruct k; unfold resolve_short_code, downloadInfo, guestDownloadInfo;
    run; simpl in Hf; rewrite Hf, Hs; simpl; rewrite He, Hu; unfold ret;
    simpl.
  - destruct (find _ (users w)); simpl; repeat split; reflexivity.
  - repeat split; reflexivity.
Qed.

Lemma resolve_presign_fails k now code w d e :
  lookup k code w = Some d ->
  File.status d = "active" ->
  Js.before_now (File.expiresAt d) now = false ->
  getSignedUrl env (download_command env d) (24 * 60 * 60) = inl e ->
  resolve_short_code env k now code w =
    (respond 500 (ErrorDetail "Internal Server Error" e), w).
Proof.
  unfold lookup. intros Hf Hs He Hu. apply String.eqb_eq in Hs.
  unfold download_command in Hu. change (24 * 60 * 60) with 86400 in Hu.
  destruct k; unfold resolve_short_code, downloadInfo, guestDownloadInfo;
    run; simpl in Hf; rewrite Hf, Hs; simpl; rewrite He, Hu; reflexivity.
Qed.

Lemma before_now_true now d :
  Js.before_now (File.expiresAt d) now = true <-> past now d.
Proof.
  unfold Js.before_now, past. destruct (File.expiresAt d) as [t|].
  - rewrite Z.ltb_lt. split.
    + intro H. exists t. now split.
    + intros [t' [E H]]. now inversion E; subst.
  - split; [discriminate | intros [t [E _]]; discriminate].
Qed.

Lemma before_now_false now d :
  Js.before_now (File.expiresAt d) now = false <-> ~ past now d.
Proof.
  rewrite <- before_now_true.
  destruct (Js.before_now (File.expiresAt d) now); split; intro H;
    try reflexivity; try discriminate.
  - now elim H.
Qed.

Lemma not_past_iff now d :
  ~ past now d <->
  File.expiresAt d = None \/ exists t, File.expiresAt d = Some t /\ now <= t.
Proof.
  unfold past. destruct (File.expiresAt d) as [t|].
  - split.
    + intro H. right. exists t. split; [reflexivity|].
      destruct (Z.lt_ge_cases t now) as [L|L]; [|exact L].
      elim H. exists t. now split.
    + intros [E|[t' [E L]]] [t'' [E' L']]; [discriminate|].
      inversion E; inversion E'; subst. lia.
  - split; [now left | intros _ [t [E _]]; discriminate].
Qed.

Lemma downloadable_iff now d :
  downloadable now d <->
  File.status d = "active" /\ Js.before_now (File.expiresAt d) now = false.
Proof.
  unfold downloadable. now rewrite before_now_false, not_past_iff.
Qed.

(** ** Resolution by short code *)

(** C1 (as the code has it).  A short code that names no record fails
    with NotFound (404).  For a record found by its short code, when the
    presigner answers, [downloadInfo] / [guestDownloadInfo] succeeds with
    the signed URL if and only if the record's status is ['active'] and its
    [expiresAt] is unset or not before the current time; a record that is
    not downloadable fails with Unavailable (403) or Expired (410). *)
Theorem short_code_resolution_succeeds_iff_downloadable k now code w :
  (lookup k code w = None ->
   statusCode (fst (resolve_short_code env k now code w)) = 404) /\
  (forall d url,
     lookup k code w = Some d ->
     getSignedUrl env (download_command env d) (24 * 60 * 60) = inr url ->
     (issues url (fst (resolve_short_code env k now code w))
        <-> downloadable now d) /\
     (~ downloadable now d ->
      statusCode (fst (resolve_short_code env k now code w)) = 403 \/
      statusCode (fst (resolve_short_code env k now code w)) = 410)).
Proof.
  split.
  - intro Hf. now rewrite (resolve_not_found _ _ _ _ Hf).
  - intros d url Hf Hu.
    destruct (String.eqb_spec (File.status d) "active") as [Hs|Hs].
    + destruct (Js.before_now (File.expiresAt d) now) eqn:He.
      * rewrite (resolve_expired _ _ _ _ _ Hf Hs He). simpl. split.
        -- split.
           ++ intros [H _]. discriminate H.
           ++ intro H. apply downloadable_iff in H. destruct H as [_ H].
              congruence.
        -- intros _. now right.
      * destruct (resolve_ok _ _ _ _ _ _ Hf Hs He Hu) as [Hi _]. split.
        -- split; [intros _ | intros _; exact Hi].
           apply downloadable_iff. now split.
        -- intro H. elim H. apply downloadable_iff. now split.
    + rewrite (resolve_unavailable _ _ _ _ _ Hf Hs). simpl. split.
      * split.
        -- intros [H _]. discriminate H.
        -- intros [H _]. contradiction.
      * intros _. now left.
Qed.

(** ** Lazy expiry *)

Lemma find_shortUrl_replace url c d d' :
  find (has_shortUrl url) c = Some d ->
  File._id d' = File._id d ->
  File.shortUrl d' = url ->
  find (has_shortUrl url) (replace_doc d' c) = Some d'.
Proof.
  intros Hf Hid Hurl.
  assert (Hd' : has_shortUrl url d' = true).
  { unfold has_shortUrl. now apply String.eqb_eq. }
  induction c as [|x rest IH]; simpl in *; [discriminate|].
  destruct (has_shortUrl url x) eqn:Hx.
  - inversion Hf; subst x.
    assert (Hi : has_id (File._id d') d = true) by now apply has_id_true.
    rewrite Hi. simpl. now rewrite Hd'.
  - destruct (has_id (File._id d') x); simpl.
    + now rewrite Hd'.
    + rewrite Hx. now apply IH.
Qed.

Lemma coll_with_coll k c w : coll (model_of k) (with_coll (model_of k) c w) = c.
Proof. now destruct k. Qed.

(** C2 (as the code has it).  On a short-code access to an active record
    whose [expiresAt] has passed, the handler sets the stored record's
    status to ['expired'] and fails with Expired (410); resolving the same
    code again, at any time, fails with Unavailable (403) and changes
    nothing. *)
Theorem lazy_expiry_on_short_code k now code w d :
  lookup k code w = Some d ->
  File.status d = "active" ->
  past now d ->
  statusCode (fst (resolve_short_code env k now code w)) = 410 /\
  lookup k code (snd (resolve_short_code env k now code w))
    = Some (File.set_status "expired" d) /\
  (forall later,
     resolve_short_code env k later code
       (snd (resolve_short_code env k now code w))
     = (respond 403 (ErrorBody "This file is not available for download"),
        snd (resolve_short_code env k now code w))).
Proof.
  intros Hf Hs Hp. apply before_now_true in Hp.
  rewrite (resolve_expired _ _ _ _ _ Hf Hs Hp). simpl.
  assert (Hl : lookup k code
                 (with_coll (model_of k)
                    (replace_doc (File.set_status "expired" d)
                                 (coll (model_of k) w)) w)
               = Some (File.set_status "expired" d)).
  { unfold lookup. rewrite coll_with_coll.
    apply find_shortUrl_replace with (d := d).
    - exact Hf.
    - reflexivity.
    - simpl. now apply find_has_shortUrl in Hf. }
  split; [reflexivity|]. split; [exact Hl|].
  intro later. apply resolve_unavailable with (d := File.set_status "expired" d).
  - exact Hl.
  - simpl. discriminate.
Qed.

(** The by-id route answers Expired for such a record and leaves the
    store as it was. *)
Lemma downloadFile_expired now fileId pw w d :
  find (has_id fileId) (files w) = Some d ->
  File.status d = "active" ->
  past now d ->
  downloadFile env now fileId pw w
    = (respond 410 (ErrorBody "This file has expired"), w).
Proof.
  intros Hf Hs Hp. apply before_now_true in Hp. apply String.eqb_eq in Hs.
  unfold downloadFile. run. rewrite Hf, Hs. simpl. now rewrite Hp.
Qed.

(** ** Password gating *)

(** What the by-id route answers for an active, unexpired, protected
    record, by the password supplied. *)
Lemma downloadFile_protected now fileId pw w d :
  find (has_id fileId) (files w) = Some d ->
  File.status d = "active" ->
  Js.before_now (File.expiresAt d) now = false ->
  File.isPasswordProtected d = true ->
  (Js.truthy pw = false ->
   downloadFile env now fileId pw w
     = (respond 401 (ErrorBody "Password required"), w)) /\
  (forall s h,
     pw = Js.str s -> s <> "" -> File.password d = Some h ->
     bcrypt_compare env s h = false ->
     downloadFile env now fileId pw w
       = (respond 403 (ErrorBody "Incorrect password"), w)) /\
  (statusCode (fst (downloadFile env now fileId pw w)) = 200 ->
   exists s h,
     pw = Js.str s /\ File.password d = Some h /\
     bcrypt_compare env s h = true).
Proof.
  intros Hf Hs He Hp. apply String.eqb_eq in Hs.
  unfold downloadFile. run. rewrite Hf, Hs. simpl. rewrite He, Hp. simpl.
  split; [|split].
  - intro Ht. now rewrite Ht.
  - intros s h -> Hne Hh Hc. simpl.
    apply String.eqb_neq in Hne. rewrite Hne. simpl.
    unfold compare. rewrite Hh. unfold ret. simpl. now rewrite Hc.
  - destruct (Js.truthy pw) eqn:Ht; simpl; [|discriminate].
    unfold compare.
    destruct pw as [| |b|n|s]; simpl; try discriminate.
    destruct (File.password d) as [h|]; simpl; [|discriminate].
    unfold ret. simpl.
    destruct (bcrypt_compare env s h) eqn:Hc; simpl; [|discriminate].
    intros _. now exists s, h.
Qed.

(** C3.  A password-protected record that is active and unexpired is
    served by its short code: [downloadInfo] / [guestDownloadInfo] take no
    password and return the signed URL.  The by-id route [downloadFile]
    answers PasswordRequired (401) without a password, IncorrectPassword
    (403) on a mismatch, and issues a URL only for a password that matches
    the stored hash. *)
Theorem short_code_path_skips_password k now code w d url :
  lookup k code w = Some d ->
  File.isPasswordProtected d = true ->
  downloadable now d ->
  getSignedUrl env (download_command env d) (24 * 60 * 60) = inr url ->
  issues url (fst (resolve_short_code env k now code w)) /\
  (forall fileId pw w2,
     find (has_id fileId) (files w2) = Some d ->
     (Js.truthy pw = false ->
      downloadFile env now fileId pw w2
        = (respond 401 (ErrorBody "Password required"), w2)) /\
     (forall s h,
        pw = Js.str s -> s <> "" -> File.password d = Some h ->
        bcrypt_compare env s h = false ->
        downloadFile env now fileId pw w2
          = (respond 403 (ErrorBody "Incorrect password"), w2)) /\
     (statusCode (fst (downloadFile env now fileId pw w2)) = 200 ->
      exists s h,
        pw = Js.str s /\ File.password d = Some h /\
        bcrypt_compare env s h = true)).
Proof.
  intros Hf Hp Hd Hu. apply downloadable_iff in Hd. destruct Hd as [Hs He].
  split.
  - exact (proj1 (resolve_ok _ _ _ _ _ _ Hf Hs He Hu)).
  - intros fileId pw w2 Hf2.
    exact (downloadFile_protected _ _ _ _ _ Hf2 Hs He Hp).
Qed.

(** ** Changing the password *)

Lemma find_id_replace id c d d' :
  find (has_id id) c = Some d ->
  File._id d' = id ->
  find (has_id id) (replace_doc d' c) = Some d'.
Proof.
  intros Hf Hid.
  assert (Hd' : has_id id d' = true) by now apply has_id_true.
  induction c as [|x rest IH]; simpl in *; [discriminate|].
  rewrite Hid. destruct (has_id id x) eqn:Hx; simpl.
  - now rewrite Hd'.
  - rewrite Hx. apply IH. exact Hf.
Qed.

Lemma updateFilePassword_empty fileId pw w d :
  find (has_id fileId) (files w) = Some d ->
  Js.truthy pw = false ->
  updateFilePassword env fileId pw w
    = (respond 400 (ErrorBody "New password is required"), w).
Proof.
  intros Hf Ht. unfold updateFilePassword. run. now rewrite Hf, Ht.
Qed.

(** A new password is hashed and stored; no other field of the record is
    written, [isPasswordProtected] included. *)
Lemma updateFilePassword_stores_hash fileId s w d :
  find (has_id fileId) (files w) = Some d ->
  s <> "" ->
  fst (updateFilePassword env fileId (Js.str s) w)
    = respond 200 (MessageBody "File password updated successfully") /\
  find (has_id fileId) (files (snd (updateFilePassword env fileId (Js.str s) w)))
    = Some (File.set_password (Some (bcrypt_hash env s (ticks w))) d) /\
  File.isPasswordProtected
    (File.set_password (Some (bcrypt_hash env s (ticks w))) d)
    = File.isPasswordProtected d.
Proof.
  intros Hf Hne. apply String.eqb_neq in Hne.
  unfold updateFilePassword, hash. run. rewrite Hf. simpl. rewrite Hne. simpl.
  split; [reflexivity|]. split; [|reflexivity].
  apply find_id_replace with (d := d); [exact Hf|].
  simpl. now apply find_has_id in Hf.
Qed.

(** ** Rotating the short link *)

Lemma find_shortUrl_absent url c :
  ~ In url (map File.shortUrl c) -> find (has_shortUrl url) c = None.
Proof.
  induction c as [|x rest IH]; simpl; intro H; [reflexivity|].
  destruct (has_shortUrl url x) eqn:Hx.
  - apply String.eqb_eq in Hx. elim H. now left.
  - apply IH. intro Hin. apply H. now right.
Qed.

(** After the record [fileId] took a new [shortUrl], its former one
    names nothing, short links being unique. *)
Lemma find_old_shortUrl_replace id c d d' :
  find (has_id id) c = Some d ->
  NoDup (map File.shortUrl c) ->
  File._id d' = id ->
  File.shortUrl d' <> File.shortUrl d ->
  find (has_shortUrl (File.shortUrl d)) (replace_doc d' c) = None.
Proof.
  intros Hf Hnd Hid Hne. subst id.
  induction c as [|x rest IH]; simpl in *; [discriminate|].
  inversion Hnd as [|u us Hnot Hnd']; subst.
  destruct (has_id (File._id d') x) eqn:Hx; simpl.
  - inversion Hf; subst x.
    apply String.eqb_neq in Hne. unfold has_shortUrl at 1. rewrite Hne.
    now apply find_shortUrl_absent.
  - assert (Hin : In d rest) by (apply find_some in Hf; tauto).
    assert (Hxd : has_shortUrl (File.shortUrl d) x = false).
    { apply String.eqb_neq. intro E. apply Hnot. rewrite E.
      now apply in_map. }
    rewrite Hxd. now apply IH.
Qed.

(** A [shortUrl] no record had is the name of the record that took it. *)
Lemma find_new_shortUrl_replace id c d d' :
  find (has_id id) c = Some d ->
  (forall x, In x c -> File.shortUrl x <> File.shortUrl d') ->
  File._id d' = id ->
  find (has_shortUrl (File.shortUrl d')) (replace_doc d' c) = Some d'.
Proof.
  intros Hf Hfresh Hid. subst id.
  assert (Hd' : has_shortUrl (File.shortUrl d') d' = true)
    by apply String.eqb_refl.
  induction c as [|x rest IH]; simpl in *; [discriminate|].
  destruct (has_id (File._id d') x) eqn:Hx; simpl.
  - now rewrite Hd'.
  - assert (Hxd : has_shortUrl (File.shortUrl d') x = false).
    { apply String.eqb_neq. apply Hfresh. now left. }
    rewrite Hxd. apply IH; [exact Hf|].
    intros y Hy. apply Hfresh. now right.
Qed.

Lemma generateShareShortenLink_found fileId w d :
  find (has_id fileId) (files w) = Some d ->
  generateShareShortenLink env fileId w
    = (respond 200
         (ShortUrl (BASE_URL env ++ "/f/" ++ shortid_generate env (ticks w))),
       with_files
         (replace_doc
            (File.set_shortUrl
               (BASE_URL env ++ "/f/" ++ shortid_generate env (ticks w)) d)
            (files w))
         (with_ticks (S (ticks w)) w)).
Proof.
  intro Hf. unfold generateShareShortenLink. run. now rewrite Hf.
Qed.

Lemma resolveShareLink_not_found now code w :
  find (has_shortUrl (BASE_URL env ++ "/f/" ++ code)) (files w) = None ->
  resolveShareLink env now code w
    = (respond 404 (ErrorBody "Invalid or expired link"), w).
Proof.
  intro Hf. unfold resolveShareLink. run. now rewrite Hf.
Qed.

Lemma resolveShareLink_found now code w d :
  find (has_shortUrl (BASE_URL env ++ "/f/" ++ code)) (files w) = Some d ->
  Js.before_now (File.expiresAt d) now = false ->
  resolveShareLink env now code w
    = (respond 200
         (ShareLink (File._id d) (File.name d) (File.size d)
            (or_else (File.type d) "file") (File.path d)
            (File.isPasswordProtected d) (File.expiresAt d)
            (or_else (File.status d) "active")), w).
Proof.
  intros Hf He. unfold resolveShareLink. run. now rewrite Hf, He.
Qed.

(** C5 (as the code has it).  For an existing record,
    [generateShareShortenLink] draws a code and overwrites the record's
    [shortUrl] with [BASE_URL/f/code], which it returns.  Short links being
    unique and the new one fresh, [resolveShareLink] (which looks up
    [BASE_URL/f/code]) finds that record under the new code, and a code
    that named the record before, on either lookup form, resolves to
    nothing. *)
Theorem generateShareShortenLink_rotates fileId w d :
  find (has_id fileId) (files w) = Some d ->
  NoDup (map File.shortUrl (files w)) ->
  (forall x, In x (files w) ->
     File.shortUrl x
       <> BASE_URL env ++ "/f/" ++ shortid_generate env (ticks w)) ->
  let code := shortid_generate env (ticks w) in
  let url := BASE_URL env ++ "/f/" ++ code in
  let w' := snd (generateShareShortenLink env fileId w) in
  fst (generateShareShortenLink env fileId w) = respond 200 (ShortUrl url) /\
  find (has_shortUrl url) (files w') = Some (File.set_shortUrl url d) /\
  (forall now, ~ past now d ->
     fst (resolveShareLink env now code w')
       = respond 200
           (ShareLink (File._id d) (File.name d) (File.size d)
              (or_else (File.type d) "file") (File.path d)
              (File.isPasswordProtected d) (File.expiresAt d)
              (or_else (File.status d) "active"))) /\
  (forall now old,
     File.shortUrl d = BASE_URL env ++ "/f/" ++ old ->
     resolveShareLink env now old w'
       = (respond 404 (ErrorBody "Invalid or expired link"), w')) /\
  (forall now old,
     File.shortUrl d = "/f/" ++ old ->
     downloadInfo env now old w'
       = (respond 404 (ErrorBody "File not found"), w')).
Proof.
  intros Hf Hnd Hfresh code url w'. subst w'.
  rewrite (generateShareShortenLink_found _ _ _ Hf). fold code. fold url.
  simpl fst. simpl snd.
  assert (Hid : File._id (File.set_shortUrl url d) = fileId).
  { simpl. now apply find_has_id in Hf. }
  assert (Hnew : find (has_shortUrl url)
                   (replace_doc (File.set_shortUrl url d) (files w))
                 = Some (File.set_shortUrl url d)).
  { apply (find_new_shortUrl_replace fileId (files w) d
             (File.set_shortUrl url d) Hf); [|exact Hid].
    intros x Hx. simpl. now apply Hfresh. }
  assert (Hold : find (has_shortUrl (File.shortUrl d))
                   (replace_doc (File.set_shortUrl url d) (files w))
                 = None).
  { apply (find_old_shortUrl_replace fileId (files w) d
             (File.set_shortUrl url d) Hf Hnd Hid).
    simpl. intro E. apply (Hfresh d).
    - apply find_some in Hf. tauto.
    - now symmetry. }
  split; [reflexivity|]. split; [exact Hnew|]. split; [|split].
  - intros now Hp. apply before_now_false in Hp.
    rewrite (resolveShareLink_found now code _ (File.set_shortUrl url d)).
    + reflexivity.
    + exact Hnew.
    + exact Hp.
  - intros now old E. apply resolveShareLink_not_found.
    rewrite <- E. exact Hold.
  - intros now old E. apply (resolve_not_found UserShare).
    unfold lookup. simpl. rewrite <- E. exact Hold.
Qed.

(** ** Deleting a share *)

(** C6.  [deleteFile] answers NotFound for an absent record and
    AlreadyDeleted for a record whose status is ['deleted'], whatever its
    other fields, both without touching anything.  Otherwise the blob is
    deleted first: when the object store rejects the command the handler
    answers with the store's error and the world, the record included, is
    as before; when it accepts, the blob goes and then the record. *)
Theorem deleteFile_blob_then_record fileId w :
  (find (has_id fileId) (files w) = None ->
   deleteFile env fileId w = (respond 404 (ErrorBody "File not found"), w)) /\
  (forall d,
     find (has_id fileId) (files w) = Some d ->
     File.status d = "deleted" ->
     deleteFile env fileId w
       = (respond 400 (ErrorBody "File already deleted"), w)) /\
  (forall d e,
     find (has_id fileId) (files w) = Some d ->
     File.status d <> "deleted" ->
     s3_error env
       (DeleteObjectCommand (AWS_BUCKET_NAME env) (buildKey (File.name d)))
       = Some e ->
     deleteFile env fileId w
       = (respond 500 (ErrorDetail "Internal Server Error" e), w)) /\
  (forall d,
     find (has_id fileId) (files w) = Some d ->
     File.status d <> "deleted" ->
     s3_error env
       (DeleteObjectCommand (AWS_BUCKET_NAME env) (buildKey (File.name d)))
       = None ->
     deleteFile env fileId w
       = (respond 200 (MessageBody "File deleted successfully"),
          with_files (remove_doc fileId (files w))
            (with_objects
               (filter
                  (fun x =>
                     negb ((Bucket x =? AWS_BUCKET_NAME env)%string
                           && (Key x =? buildKey (File.name d))%string))
                  (objects w))
               w))).
Proof.
  repeat split.
  - intro Hf. unfold deleteFile. run. now rewrite Hf.
  - intros d Hf Hs. apply String.eqb_eq in Hs.
    unfold deleteFile. run. now rewrite Hf, Hs.
  - intros d e Hf Hs He. apply String.eqb_neq in Hs.
    unfold deleteFile, send. run. rewrite Hf, Hs. simpl. now rewrite He.
  - intros d Hf Hs He. apply String.eqb_neq in Hs.
    unfold deleteFile, send. run. rewrite Hf, Hs. simpl. now rewrite He.
Qed.

(** ** The bulk sweep of expiries *)

Lemma with_files_with_files c c' w :
  with_files c (with_files c' w) = with_files c w.
Proof. reflexivity. Qed.

Lemma replace_doc_app d' done x rest :
  (forall y, In y done -> File._id y <> File._id d') ->
  File._id x = File._id d' ->
  replace_doc d' (done ++ x :: rest) = (done ++ d' :: rest)%list.
Proof.
  intros Hdone Hx. induction done as [|y done' IH]; simpl.
  - assert (H : has_id (File._id d') x = true) by now apply has_id_true.
    now rewrite H.
  - assert (H : has_id (File._id d') y = false).
    { apply String.eqb_neq. apply Hdone. now left. }
    rewrite H. f_equal. apply IH. intros z Hz. apply Hdone. now right.
Qed.

Lemma swept_id now d : File._id (swept now d) = File._id d.
Proof.
  unfold swept. destruct (live d); [|reflexivity].
  now destruct (Js.before_now (File.expiresAt d) now).
Qed.



Lemma swept_live now d : live (swept now d) = live d.
Proof.
  unfold swept. destruct (live d) eqn:Hl; [|exact Hl].
  destruct (Js.before_now (File.expiresAt d) now); [reflexivity|exact Hl].
Qed.

Lemma filter_live_swept now c :
  filter live (map (swept now) c) = map (swept now) (filter live c).
Proof.
  induction c as [|x rest IH]; simpl; [reflexivity|].
  rewrite swept_live. destruct (live x); simpl; now rewrite IH.
Qed.

Lemma updateAllFileExpiry_loop_cons now x rest acc :
  updateAllFileExpiry_loop now (x :: rest) acc
    = if live x
      then bind (save FileModel (swept now x))
             (fun _ => updateAllFileExpiry_loop now rest
                         (acc ++ [swept now x])%list)
      else updateAllFileExpiry_loop now rest acc.
Proof.
  unfold swept, live. simpl.
  destruct (File.status x =? "deleted")%string; reflexivity.
Qed.

(** The loop, run over the part [todo] of the collection that is still to
    be visited: each visited record is replaced in place. *)
Lemma updateAllFileExpiry_loop_run now todo :
  forall done acc w,
    files w = (done ++ todo)%list ->
    NoDup (map File._id (done ++ todo)) ->
    updateAllFileExpiry_loop now todo acc w
      = (Next (acc ++ map (swept now) (filter live todo))%list,
         with_files (done ++ map (swept now) todo) w).
Proof.
  induction todo as [|x rest IH]; intros done acc w Hw Hnd.
  - simpl. unfold ret. rewrite !app_nil_r. rewrite app_nil_r in Hw.
    rewrite <- Hw. now destruct w.
  - rewrite updateAllFileExpiry_loop_cons. cbn [map filter].
    destruct (live x) eqn:Hl.
    + unfold bind, save, modify. cbn [coll with_coll FileModel].
      assert (Hrep : replace_doc (swept now x) (files w)
                     = (done ++ swept now x :: rest)%list).
      { rewrite Hw. apply replace_doc_app.
        - intros y Hy E. rewrite swept_id in E.
          rewrite map_app in Hnd. simpl in Hnd.
          apply NoDup_remove_2 in Hnd. apply Hnd.
          apply in_or_app. left. rewrite <- E. now apply in_map.
        - now rewrite swept_id. }
      rewrite Hrep.
      rewrite (IH (done ++ [swept now x])%list (acc ++ [swept now x])%list
                  (with_files (done ++ swept now x :: rest) w)).
      * rewrite with_files_with_files. cbn [map]. now rewrite <- !app_assoc.
      * simpl. now rewrite <- app_assoc.
      * rewrite <- app_assoc. simpl.
        rewrite map_app in *. simpl in *. now rewrite swept_id.
    + assert (Hsw : swept now x = x) by (unfold swept; now rewrite Hl).
      rewrite Hsw.
      rewrite (IH (done ++ [x])%list acc w).
      * now rewrite <- app_assoc.
      * now rewrite <- app_assoc.
      * now rewrite <- app_assoc.
Qed.


(** ** Expiry of an uploaded share *)

Ltac run_upload :=
  unfold upload_each, uploadFiles_each, uploadFilesGuest_each, shortid, send,
         hash, valid_date, insert, bind, draw, ret, throw,
         modify; simpl.

(** The expiry the body of the loop has built is a valid date or not. *)
Ltac date_cases :=
  match goal with
  | |- context [match ?d with Js.InvalidDate => _ | Js.Date _ => _ end] =>
      destruct d eqn:Hd
  end; simpl.

Lemma time_clip_date t ms : Js.time_clip t = Js.Date ms -> ms = t.
Proof.
  unfold Js.time_clip. destruct (Z.abs t <=? Js.max_time); [|discriminate].
  intro E. now inversion E.
Qed.

Lemma time_clip_valid t : Js.valid_time t -> Js.time_clip t = Js.Date t.
Proof.
  unfold Js.time_clip, Js.valid_time. intro H.
  apply Z.leb_le in H. now rewrite H.
Qed.

Lemma time_clip_invalid t : ~ Js.valid_time t -> Js.time_clip t = Js.InvalidDate.
Proof.
  unfold Js.time_clip, Js.valid_time. intro H.
  destruct (Z.abs t <=? Js.max_time) eqn:E; [|reflexivity].
  apply Z.leb_le in E. contradiction.
Qed.

Lemma hours_from_exact now v h :
  Number env v = Js.Fin h ->
  Js.safe (h * 3600000) = true ->
  hours_from env now v = Js.time_clip (now + h * 3600000).
Proof.
  intros Hn Hs. unfold hours_from. now rewrite Hn, Hs.
Qed.

Lemma upload_each_run k now b file w :
  match upload_each env k now b file w with
  | (Next d, w') =>
      coll (model_of k) w' = (coll (model_of k) w ++ [d])%list /\
      expires_as_uploaded env now b d
  | (_, w') => coll (model_of k) w' = coll (model_of k) w
  end.
Proof.
  unfold expires_as_uploaded.
  destruct k; run_upload;
    destruct (s3_error env _); simpl; try reflexivity;
    destruct (Js.strict_eq_str (Upload.isPassword b) "true"); simpl;
    try (destruct (Upload.password b); simpl; try reflexivity);
    destruct (Js.strict_eq_str (Upload.hasExpiry b) "true") eqn:Hh; simpl;
    date_cases; try reflexivity;
    (split; [reflexivity|]); split; intros; try discriminate;
    try (apply time_clip_date in Hd; f_equal; lia);
    match goal with
    | Hn : Number env _ = Js.Fin ?h, Hs : Js.safe _ = true |- _ =>
        rewrite (hours_from_exact now _ h Hn Hs) in Hd;
        apply time_clip_date in Hd; now subst
    end.
Qed.

Lemma upload_each_accepted k now b file w :
  accepted env now b ->
  exists d w', upload_each env k now b file w = (Next d, w').
Proof.
  intros [Hs3 [Hpw [Hdt Hdf]]].
  destruct k; run_upload; rewrite Hs3; simpl;
    destruct (Js.strict_eq_str (Upload.isPassword b) "true"); simpl;
    try (destruct (Hpw eq_refl) as [s ->]; simpl);
    destruct (Js.strict_eq_str (Upload.hasExpiry b) "true"); simpl;
    try (destruct (Hdt eq_refl) as [h [Hn [Hs Hv]]];
         rewrite (hours_from_exact now _ h Hn Hs), (time_clip_valid _ Hv);
         simpl);
    try (rewrite (time_clip_valid (now + 864000000) (Hdf eq_refl)); simpl);
    eexists; eexists; reflexivity.
Qed.

Lemma uploadFiles_loop_cons now b file rest saved user w :
  uploadFiles_loop env now b (file :: rest) saved user w
    = match uploadFiles_each env now b file w with
      | (Next d, w') =>
          uploadFiles_loop env now b rest (saved ++ [d])%list
            (let user := User.set_totalUploads (User.totalUploads user + 1)
                           user in
             if prefix "image/" (Upload.mimetype file)
             then User.set_imageCount (User.imageCount user + 1) user
             else if prefix "video/" (Upload.mimetype file)
             then User.set_videoCount (User.videoCount user + 1) user
             else if prefix "application/" (Upload.mimetype file)
             then User.set_documentCount (User.documentCount user + 1) user
             else user)
            w'
      | (Return r, w') => (Return r, w')
      | (Throw e, w') => (Throw e, w')
      end.
Proof. reflexivity. Qed.

Lemma uploadFilesGuest_loop_cons now b file rest saved w :
  uploadFilesGuest_loop env now b (file :: rest) saved w
    = match uploadFilesGuest_each env now b file w with
      | (Next d, w') =>
          uploadFilesGuest_loop env now b rest (saved ++ [d])%list w'
      | (Return r, w') => (Return r, w')
      | (Throw e, w') => (Throw e, w')
      end.
Proof. reflexivity. Qed.

(** Whatever the outcome of the loop, the collection has grown by the
    records created so far, each with the expiry of the upload; when the
    loop ends normally there is one record for each file. *)
Lemma uploadFiles_loop_run now b fs :
  forall saved user w,
  exists created,
    files (snd (uploadFiles_loop env now b fs saved user w))
      = (files w ++ created)%list /\
    Forall (expires_as_uploaded env now b) created /\
    (forall r,
       fst (uploadFiles_loop env now b fs saved user w) = Next r ->
       fst r = (saved ++ created)%list /\
       List.length created = List.length fs).
Proof.
  induction fs as [|file rest IH]; intros saved user w.
  - exists []. simpl. rewrite !app_nil_r. split; [reflexivity|].
    split; [constructor|]. intros r E. inversion E; subst. now split.
  - rewrite uploadFiles_loop_cons.
    pose proof (upload_each_run UserShare now b file w) as Hrun.
    simpl in Hrun.
    destruct (uploadFiles_each env now b file w) as [[d|r|e] w1].
    + destruct Hrun as [Hw1 Hd].
      match goal with
      | |- context [uploadFiles_loop env now b rest ?s ?u w1] =>
          destruct (IH s u w1) as [created [Hc [Hf Hn]]]
      end.
      exists (d :: created). rewrite Hc, Hw1, <- app_assoc.
      split; [reflexivity|]. split; [now constructor|].
      intros r E. destruct (Hn r E) as [E1 E2]. rewrite E1, <- app_assoc.
      simpl. now rewrite E2.
    + exists []. simpl. rewrite app_nil_r. split; [exact Hrun|].
      split; [constructor | discriminate].
    + exists []. simpl. rewrite app_nil_r. split; [exact Hrun|].
      split; [constructor | discriminate].
Qed.

Lemma uploadFilesGuest_loop_run now b fs :
  forall saved w,
  exists created,
    guestFiles (snd (uploadFilesGuest_loop env now b fs saved w))
      = (guestFiles w ++ created)%list /\
    Forall (expires_as_uploaded env now b) created /\
    (forall r,
       fst (uploadFilesGuest_loop env now b fs saved w) = Next r ->
       r = (saved ++ created)%list /\
       List.length created = List.length fs).
Proof.
  induction fs as [|file rest IH]; intros saved w.
  - exists []. simpl. rewrite !app_nil_r. split; [reflexivity|].
    split; [constructor|]. intros r E. inversion E; subst. now split.
  - rewrite uploadFilesGuest_loop_cons.
    pose proof (upload_each_run GuestShare now b file w) as Hrun.
    simpl in Hrun.
    destruct (uploadFilesGuest_each env now b file w) as [[d|r|e] w1].
    + destruct Hrun as [Hw1 Hd].
      destruct (IH (saved ++ [d])%list w1) as [created [Hc [Hf Hn]]].
      exists (d :: created). rewrite Hc, Hw1, <- app_assoc.
      split; [reflexivity|]. split; [now constructor|].
      intros r E. destruct (Hn r E) as [E1 E2]. rewrite E1, <- app_assoc.
      simpl. now rewrite E2.
    + exists []. simpl. rewrite app_nil_r. split; [exact Hrun|].
      split; [constructor | discriminate].
    + exists []. simpl. rewrite app_nil_r. split; [exact Hrun|].
      split; [constructor | discriminate].
Qed.

Lemma uploadFiles_loop_accepted now b fs :
  accepted env now b ->
  forall saved user w,
  exists r, fst (uploadFiles_loop env now b fs saved user w) = Next r.
Proof.
  intro Ha. induction fs as [|file rest IH]; intros saved user w.
  - eexists. reflexivity.
  - rewrite uploadFiles_loop_cons.
    destruct (upload_each_accepted UserShare now b file w Ha) as [d [w1 E]].
    simpl in E. rewrite E. apply IH.
Qed.

Lemma uploadFilesGuest_loop_accepted now b fs :
  accepted env now b ->
  forall saved w,
  exists r, fst (uploadFilesGuest_loop env now b fs saved w) = Next r.
Proof.
  intro Ha. induction fs as [|file rest IH]; intros saved w.
  - eexists. reflexivity.
  - rewrite uploadFilesGuest_loop_cons.
    destruct (upload_each_accepted GuestShare now b file w Ha) as [d [w1 E]].
    simpl in E. rewrite E. apply IH.
Qed.

Lemma uploadFiles_loop_accepted_or now b fs saved user w :
  (exists r, fst (uploadFiles_loop env now b fs saved user w) = Next r) \/
  ~ accepted env now b.
Proof.
  destruct (uploadFiles_loop env now b fs saved user w) as [[r|r|e] w1] eqn:E.
  - left. now exists r.
  - right. intro Ha.
    destruct (uploadFiles_loop_accepted now b fs Ha saved user w) as [r' E'].
    rewrite E in E'. discriminate E'.
  - right. intro Ha.
    destruct (uploadFiles_loop_accepted now b fs Ha saved user w) as [r' E'].
    rewrite E in E'. discriminate E'.
Qed.

Lemma uploadFilesGuest_loop_accepted_or now b fs saved w :
  (exists r, fst (uploadFilesGuest_loop env now b fs saved w) = Next r) \/
  ~ accepted env now b.
Proof.
  destruct (uploadFilesGuest_loop env now b fs saved w) as [[r|r|e] w1] eqn:E.
  - left. now exists r.
  - right. intro Ha.
    destruct (uploadFilesGuest_loop_accepted now b fs Ha saved w) as [r' E'].
    rewrite E in E'. discriminate E'.
  - right. intro Ha.
    destruct (uploadFilesGuest_loop_accepted now b fs Ha saved w) as [r' E'].
    rewrite E in E'. discriminate E'.
Qed.

(** C8.  Every record an upload (user or guest) creates at time [now]
    expires at [now] plus exactly 240 hours when [hasExpiry] is not
    ['true'], and at [now] plus the supplied number of hours when it is
    (whole hours whose milliseconds a double holds exactly).  An upload
    nothing stands against (the store accepts, a password is a string,
    the expiry lies in the range of valid dates) answers 201 and creates
    one such record for each file. *)
Theorem upload_sets_expiry k now fs b w :
  exists created,
    coll (model_of k) (snd (upload env k now fs b w))
      = (coll (model_of k) w ++ created)%list /\
    Forall (expires_as_uploaded env now b) created /\
    (fs <> [] ->
     accepted env now b ->
     (k = UserShare ->
      exists u,
        find (fun u => (User._id u =? Upload.userId b)%string) (users w)
          = Some u) ->
     statusCode (fst (upload env k now fs b w)) = 201 /\
     List.length created = List.length fs).
Proof.
  destruct fs as [|file rest].
  - exists []. destruct k; simpl; rewrite app_nil_r;
      (split; [reflexivity|]); (split; [constructor|]); intro H; now elim H.
  - destruct k; unfold upload, uploadFiles, uploadFilesGuest;
      cbn [List.length Nat.eqb coll model_of FileModel GuestFileModel];
      unfold try_catch, bind, User_findById.
    + destruct (find _ (users w)) as [u|] eqn:Hu.
      * destruct (uploadFiles_loop_run now b (file :: rest) [] u w)
          as [created [Hc [Hf Hn]]].
        destruct (uploadFiles_loop_accepted_or now b (file :: rest) [] u w)
          as [Hacc|Hrej].
        -- destruct Hacc as [r E].
           exists created.
           destruct (uploadFiles_loop env now b (file :: rest) [] u w)
             as [o w1]. cbn [fst snd] in *. subst o.
           unfold User_save, modify, ret. cbn [fst snd files with_users].
           split; [exact Hc|]. split; [exact Hf|]. intros _ _ _.
           split; [reflexivity|]. exact (proj2 (Hn r eq_refl)).
        -- exists created.
           destruct (uploadFiles_loop env now b (file :: rest) [] u w)
             as [o w1]. cbn [fst snd] in *.
           split.
           ++ rewrite <- Hc. destruct o as [a|r0|e0]; reflexivity.
           ++ split; [exact Hf|]. intros _ Ha _.
              destruct (Hrej Ha).
      * exists []. simpl. rewrite app_nil_r. split; [reflexivity|].
        split; [constructor|]. intros _ _ Hex.
        destruct (Hex eq_refl) as [u Hu']. discriminate Hu'.
    + destruct (uploadFilesGuest_loop_run now b (file :: rest) [] w)
        as [created [Hc [Hf Hn]]].
      destruct (uploadFilesGuest_loop_accepted_or now b (file :: rest) [] w)
        as [Hacc|Hrej].
      * destruct Hacc as [r E]. exists created.
        destruct (uploadFilesGuest_loop env now b (file :: rest) [] w)
          as [o w1]. cbn [fst snd] in *. subst o. unfold ret.
        cbn [fst snd].
        split; [exact Hc|]. split; [exact Hf|]. intros _ _ _.
        split; [reflexivity|]. exact (proj2 (Hn r eq_refl)).
      * exists created.
        destruct (uploadFilesGuest_loop env now b (file :: rest) [] w)
          as [o w1]. cbn [fst snd] in *.
        split.
        -- rewrite <- Hc. destruct o as [a|r0|e0]; reflexivity.
        -- split; [exact Hf|]. intros _ Ha _. destruct (Hrej Ha).
Qed.

(** ** Verifying a password *)

(** C9.  [verifyFilePassword] / [verifyGuestFilePassword] leave the world
    as it is, whatever they answer.  They answer NotProtected (400) when
    the short code names no record or the record is not protected;
    otherwise they answer by the comparison of the supplied password with
    the stored hash: 200 on a match, 401 on a mismatch. *)
Theorem verify_is_read_only k code pw w :
  snd (verify_short_code env k code pw w) = w /\
  (lookup k code w = None ->
   fst (verify_short_code env k code pw w)
     = respond 400 (VerifyFailure "File not protected or not found")) /\
  (forall d,
     lookup k code w = Some d ->
     File.isPasswordProtected d = false ->
     fst (verify_short_code env k code pw w)
       = respond 400 (VerifyFailure "File not protected or not found")) /\
  (forall d s h,
     lookup k code w = Some d ->
     File.isPasswordProtected d = true ->
     pw = Js.str s ->
     File.password d = Some h ->
     fst (verify_short_code env k code pw w)
       = if bcrypt_compare env s h
         then respond 200 (VerifySuccess "Password verified")
         else respond 401 (VerifyFailure "Incorrect password")).
Proof.
  unfold lookup.
  destruct k; unfold verify_short_code, verifyFilePassword,
    verifyGuestFilePassword, compare; run;
    (destruct (find _ _) as [d|] eqn:Hf;
     [destruct (File.isPasswordProtected d) eqn:Hp; simpl;
      [destruct pw as [| |bo|n|s]; simpl;
       try (destruct (File.password d) as [h|] eqn:Hh; simpl;
            try destruct (bcrypt_compare env s h) eqn:Hc; simpl)|]|]);
    (split; [reflexivity|]); (split; [|split]);
    try discriminate; try reflexivity;
    try (intros d0 E; inversion E; subst d0; congruence);
    try (intros d0 s0 h0 E; inversion E; subst d0; congruence);
    intros d0 s0 h0 E _ Es Eh; inversion E; subst d0;
    inversion Es; subst s0; rewrite Hh in Eh; inversion Eh; subst h0;
    rewrite Hc; reflexivity.
Qed.

(** ** Setting the expiry *)




(** * Further properties of the controller *)

(** ** Counting downloads *)

Lemma find_id_replace_in c d d' :
  In d c ->
  File._id d' = File._id d ->
  find (has_id (File._id d)) (replace_doc d' c) = Some d'.
Proof.
  intros Hin Hid.
  assert (Hd' : has_id (File._id d) d' = true) by now apply has_id_true.
  induction c as [|x rest IH]; simpl in *; [contradiction|].
  rewrite Hid. destruct (has_id (File._id d) x) eqn:Hx; simpl.
  - now rewrite Hd'.
  - rewrite Hx. destruct Hin as [E|Hin].
    + subst x. unfold has_id in Hx. now rewrite String.eqb_refl in Hx.
    + now apply IH.
Qed.

Lemma getDownloadCount_found fileId w d :
  find (has_id fileId) (files w) = Some d ->
  getDownloadCount fileId w
    = (respond 200 (DownloadCount (File.downloadedContent d)), w).
Proof.
  intro Hf. unfold getDownloadCount. run. now rewrite Hf.
Qed.

(** X1.  A short-code resolution that is served adds exactly one to the
    stored [downloadedContent] of the record and changes no other field
    of it; for a user share [getDownloadCount] then reports the old count
    plus one. *)
Theorem served_resolution_counts_once k now code w d url :
  lookup k code w = Some d ->
  downloadable now d ->
  getSignedUrl env (download_command env d) (24 * 60 * 60) = inr url ->
  lookup k code (snd (resolve_short_code env k now code w))
    = Some (File.set_downloadedContent (File.downloadedContent d + 1) d) /\
  (k = UserShare ->
   getDownloadCount (File._id d) (snd (resolve_short_code env k now code w))
     = (respond 200 (DownloadCount (File.downloadedContent d + 1)),
        snd (resolve_short_code env k now code w))).
Proof.
  intros Hf Hd Hu. apply downloadable_iff in Hd. destruct Hd as [Hs He].
  destruct (resolve_ok _ _ _ _ _ _ Hf Hs He Hu) as [_ Hc].
  split.
  - unfold lookup. rewrite Hc. apply find_shortUrl_replace with (d := d).
    + exact Hf.
    + reflexivity.
    + simpl. now apply find_has_shortUrl in Hf.
  - intros ->. cbn [resolve_short_code model_of coll FileModel] in *.
    rewrite (getDownloadCount_found (File._id d) _
               (File.set_downloadedContent (File.downloadedContent d + 1) d)).
    + reflexivity.
    + rewrite Hc. apply find_id_replace_in; [|reflexivity].
      unfold lookup in Hf. apply find_some in Hf. tauto.
Qed.

(** X2.  A short-code resolution that answers neither 200 nor 410 leaves
    the world as it was: nothing is counted, no status is written. *)
Theorem unserved_resolution_changes_nothing k now code w :
  statusCode (fst (resolve_short_code env k now code w)) <> 200 ->
  statusCode (fst (resolve_short_code env k now code w)) <> 410 ->
  snd (resolve_short_code env k now code w) = w.
Proof.
  intros H200 H410.
  destruct (lookup k code w) as [d|] eqn:Hf.
  - destruct (String.eqb_spec (File.status d) "active") as [Hs|Hs].
    + destruct (Js.before_now (File.expiresAt d) now) eqn:He.
      * rewrite (resolve_expired _ _ _ _ _ Hf Hs He) in H410.
        now elim H410.
      * destruct (getSignedUrl env (download_command env d) (24 * 60 * 60))
          as [e|url] eqn:Hu.
        -- now rewrite (resolve_presign_fails _ _ _ _ _ _ Hf Hs He Hu).
        -- destruct (resolve_ok _ _ _ _ _ _ Hf Hs He Hu) as [[Hi _] _].
           now elim H200.
    + now rewrite (resolve_unavailable _ _ _ _ _ Hf Hs).
  - now rewrite (resolve_not_found _ _ _ _ Hf).
Qed.

(** ** The owner's download counter *)

Lemma find_user_replace id c u u' :
  find (fun x => (User._id x =? id)%string) c = Some u ->
  User._id u' = User._id u ->
  find (fun x => (User._id x =? id)%string) (replace_user u' c) = Some u'.
Proof.
  intros Hf Hid.
  assert (Hu : User._id u = id).
  { apply find_some in Hf. destruct Hf as [_ H]. now apply String.eqb_eq. }
  assert (Hu' : (User._id u' =? id)%string = true).
  { apply String.eqb_eq. congruence. }
  induction c as [|x rest IH]; simpl in *; [discriminate|].
  rewrite Hid, Hu. destruct (User._id x =? id)%string eqn:Hx; simpl.
  - now rewrite Hu'.
  - rewrite Hx. now apply IH.
Qed.

(** X3.  A served [downloadInfo] adds one to [totalDownloads] of the
    record's owner when [createdBy] names a user, and names that user in
    [uploadedBy]; when it names none the download is served all the same,
    [uploadedBy] reads ['Unknown'] and the users are untouched. *)
Theorem downloadInfo_credits_owner now code w d url :
  lookup UserShare code w = Some d ->
  downloadable now d ->
  getSignedUrl env (download_command env d) (24 * 60 * 60) = inr url ->
  (forall u,
     find (fun x => (User._id x =? File.createdBy d)%string) (users w)
       = Some u ->
     find (fun x => (User._id x =? File.createdBy d)%string)
          (users (snd (downloadInfo env now code w)))
       = Some (User.set_totalDownloads (User.totalDownloads u + 1) u)) /\
  (find (fun x => (User._id x =? File.createdBy d)%string) (users w) = None ->
   users (snd (downloadInfo env now code w)) = users w /\
   fst (downloadInfo env now code w)
     = respond 200
         (DownloadInfo url (File._id d) (File.name d) (File.size d)
            (or_else (File.type d) "file") (File.path d)
            (File.isPasswordProtected d) (File.expiresAt d)
            (or_else (File.status d) "active") (File.shortUrl d)
            (File.downloadedContent d + 1) "Unknown")).
Proof.
  unfold lookup. simpl. intros Hf Hd Hu.
  apply downloadable_iff in Hd. destruct Hd as [Hs He].
  apply String.eqb_eq in Hs.
  unfold download_command in Hu. change (24 * 60 * 60) with 86400 in Hu.
  unfold downloadInfo. run. rewrite Hf, Hs. simpl. rewrite He, Hu.
  unfold ret. simpl. split.
  - intros u Hfu. rewrite Hfu. simpl.
    now apply find_user_replace with (u := u).
  - intros Hfu. rewrite Hfu. simpl. split; reflexivity.
Qed.

(** ** Download by id *)

Lemma Forall2_replace (R : File.doc -> File.doc -> Prop) id c d d' :
  (forall x, R x x) ->
  find (has_id id) c = Some d ->
  File._id d' = id ->
  R d d' ->
  Forall2 R c (replace_doc d' c).
Proof.
  intros Hrefl Hf Hid HR. subst id.
  induction c as [|x rest IH]; simpl in *; [constructor|].
  destruct (has_id (File._id d') x) eqn:Hx.
  - inversion Hf; subst x. constructor; [exact HR|].
    clear - Hrefl. induction rest; constructor; auto.
  - constructor; [apply Hrefl | now apply IH].
Qed.

Lemma Forall2_same R (c : list File.doc) :
  (forall x, R x x) -> Forall2 R c c.
Proof. intro H. induction c; constructor; auto. Qed.

(** X4.  [downloadFile] writes nothing unless it answers 200, and then it
    has added exactly one to [downloadedContent] of the requested record:
    on every input the records after differ from the records before at
    most in that counter, and guest shares and blobs are untouched. *)
Theorem downloadFile_touches_only_the_count now fileId pw w :
  (statusCode (fst (downloadFile env now fileId pw w)) <> 200 ->
   snd (downloadFile env now fileId pw w) = w) /\
  (statusCode (fst (downloadFile env now fileId pw w)) = 200 ->
   exists d,
     find (has_id fileId) (files w) = Some d /\
     find (has_id fileId) (files (snd (downloadFile env now fileId pw w)))
       = Some (File.set_downloadedContent (File.downloadedContent d + 1) d)) /\
  Forall2 same_but_count (files w)
    (files (snd (downloadFile env now fileId pw w))) /\
  guestFiles (snd (downloadFile env now fileId pw w)) = guestFiles w /\
  objects (snd (downloadFile env now fileId pw w)) = objects w.
Proof.
  assert (Hrefl : forall x, same_but_count x x) by reflexivity.
  unfold downloadFile, compare. run.
  destruct (find (has_id fileId) (files w)) as [d|] eqn:Hf; simpl;
    [|repeat split; try discriminate; try (intro H; now elim H);
      now apply Forall2_same].
  assert (Hid : File._id d = fileId) by now apply find_has_id in Hf.
  assert (Hrep : Forall2 same_but_count (files w)
            (replace_doc
               (File.set_downloadedContent (File.downloadedContent d + 1) d)
               (files w))).
  { apply Forall2_replace with (id := fileId) (d := d); auto.
    reflexivity. }
  assert (Hfind : find (has_id fileId)
            (replace_doc
               (File.set_downloadedContent (File.downloadedContent d + 1) d)
               (files w))
          = Some (File.set_downloadedContent (File.downloadedContent d + 1) d)).
  { now apply find_id_replace with (d := d). }
  destruct (File.status d =? "active")%string; simpl;
    [|repeat split; try discriminate; try (intro H; now elim H);
      now apply Forall2_same].
  destruct (Js.before_now (File.expiresAt d) now); simpl;
    [repeat split; try discriminate; try (intro H; now elim H);
     now apply Forall2_same|].
  destruct (File.isPasswordProtected d); simpl.
  - destruct (Js.truthy pw); simpl;
      [|repeat split; try discriminate; try (intro H; now elim H);
        now apply Forall2_same].
    destruct pw as [| |bo|n|s]; simpl;
      try (repeat split; try discriminate; try (intro H; now elim H);
           now apply Forall2_same).
    destruct (File.password d) as [h|]; simpl;
      [|repeat split; try discriminate; try (intro H; now elim H);
        now apply Forall2_same].
    unfold ret. simpl.
    destruct (bcrypt_compare env s h); simpl;
      [|repeat split; try discriminate; try (intro H; now elim H);
        now apply Forall2_same].
    destruct (getSignedUrl env _ _) as [e|url]; simpl;
      [repeat split; try discriminate; try (intro H; now elim H);
       now apply Forall2_same|].
    unfold ret. simpl.
    destruct (find _ (users w)); simpl;
      (split; [intro H; now elim H|]);
      (split; [intros _; exists d; split; [reflexivity | exact Hfind]|]);
      (split; [exact Hrep | split; reflexivity]).
  - unfold ret. simpl.
    destruct (getSignedUrl env _ _) as [e|url]; simpl;
      [repeat split; try discriminate; try (intro H; now elim H);
       now apply Forall2_same|].
    unfold ret. simpl.
    destruct (find _ (users w)); simpl;
      (split; [intro H; now elim H|]);
      (split; [intros _; exists d; split; [reflexivity | exact Hfind]|]);
      (split; [exact Hrep | split; reflexivity]).
Qed.

(** ** Toggling the status *)

Lemma updateFileStatus_ok fileId s w d :
  find (has_id fileId) (files w) = Some d ->
  s = "active" \/ s = "inactive" ->
  File.status d <> s ->
  updateFileStatus fileId (Js.str s) w
    = (respond 200 (MessageBody "File status updated successfully"),
       with_files (replace_doc (File.set_status s d) (files w)) w).
Proof.
  intros Hf Hs Hne. apply String.eqb_neq in Hne.
  unfold updateFileStatus. run.
  destruct Hs as [-> | ->]; simpl; rewrite Hf; simpl; now rewrite Hne.
Qed.



(** X6.  [updateFileStatus] puts any record that is not active, an
    expired one included, back to ['active'].  If the record's [expiresAt]
    has passed, the next resolution by short code answers Expired (410)
    and stores ['expired'] again; if it has not, the record is served. *)
Theorem reactivated_record_expires_again now fileId code w d :
  find (has_id fileId) (files w) = Some d ->
  lookup UserShare code w = Some d ->
  File.status d <> "active" ->
  fst (updateFileStatus fileId (Js.str "active") w)
    = respond 200 (MessageBody "File status updated successfully") /\
  (past now d ->
   statusCode
     (fst (downloadInfo env now code
             (snd (updateFileStatus fileId (Js.str "active") w)))) = 410 /\
   lookup UserShare code
     (snd (downloadInfo env now code
             (snd (updateFileStatus fileId (Js.str "active") w))))
     = Some (File.set_status "expired" d)) /\
  (forall url,
     ~ past now d ->
     getSignedUrl env (download_command env d) (24 * 60 * 60) = inr url ->
     issues url
       (fst (downloadInfo env now code
               (snd (updateFileStatus fileId (Js.str "active") w))))).
Proof.
  intros Hf Hl Hne.
  assert (Hid : File._id d = fileId) by now apply find_has_id in Hf.
  rewrite (updateFileStatus_ok fileId "active" w d Hf (or_introl eq_refl) Hne).
  cbn [fst snd].
  assert (Hl1 : lookup UserShare code
            (with_files (replace_doc (File.set_status "active" d) (files w)) w)
          = Some (File.set_status "active" d)).
  { unfold lookup in *. simpl in *.
    apply find_shortUrl_replace with (d := d); auto.
    simpl. now apply find_has_shortUrl in Hl. }
  split; [reflexivity|]. split.
  - intro Hp. apply before_now_true in Hp.
    pose proof (resolve_expired UserShare now code _ _ Hl1 eq_refl Hp) as E.
    cbn [resolve_short_code] in E. rewrite E. cbn [fst snd].
    split; [reflexivity|].
    unfold lookup in *. cbn [model_of coll with_coll FileModel files
                               with_files namespace] in *.
    assert (Hd : File.set_status "expired" (File.set_status "active" d)
                 = File.set_status "expired" d) by reflexivity.
    rewrite Hd.
    apply find_shortUrl_replace with (d := File.set_status "active" d).
    + exact Hl1.
    + reflexivity.
    + simpl. now apply find_has_shortUrl in Hl.
  - intros url Hp Hu. apply before_now_false in Hp.
    exact (proj1 (resolve_ok UserShare now code _
                    (File.set_status "active" d) url Hl1 eq_refl Hp Hu)).
Qed.

(** ** Extending the expiry *)

(** X7.  After [updateFileExpiry] with a whole number of hours that is
    not negative (and leads from [now] to a valid date), an active record
    is served by its short code at that time, even if its former
    [expiresAt] had passed; a record whose stored status is not ['active']
    (say ['expired']) still answers Unavailable (403). *)
Theorem extended_expiry_serves_active_only now fileId code v h w d :
  find (has_id fileId) (files w) = Some d ->
  lookup UserShare code w = Some d ->
  Js.truthy v = true ->
  Number env v = Js.Fin h ->
  Js.safe (h * 3600000) = true ->
  Js.valid_time (now + h * 3600000) ->
  0 <= h ->
  (forall url,
     File.status d = "active" ->
     getSignedUrl env (download_command env d) (24 * 60 * 60) = inr url ->
     issues url
       (fst (downloadInfo env now code
               (snd (updateFileExpiry env now fileId v w))))) /\
  (File.status d <> "active" ->
   statusCode
     (fst (downloadInfo env now code
             (snd (updateFileExpiry env now fileId v w)))) = 403).
Proof.
  intros Hf Hl Ht Hn Hsafe Hvalid Hh.
  assert (Hid : File._id d = fileId) by now apply find_has_id in Hf.
  assert (E : snd (updateFileExpiry env now fileId v w)
              = with_files
                  (replace_doc
                     (File.set_expiresAt (Some (now + h * 3600000)) d)
                     (files w)) w).
  { unfold updateFileExpiry, valid_date. run.
    rewrite Hf, Ht. simpl.
    now rewrite (hours_from_exact now v h Hn Hsafe),
                (time_clip_valid _ Hvalid). }
  rewrite E.
  assert (Hl1 : lookup UserShare code
            (with_files
               (replace_doc (File.set_expiresAt (Some (now + h * 3600000)) d)
                            (files w)) w)
          = Some (File.set_expiresAt (Some (now + h * 3600000)) d)).
  { unfold lookup in *. simpl in *.
    apply find_shortUrl_replace with (d := d); auto.
    simpl. now apply find_has_shortUrl in Hl. }
  split.
  - intros url Hs Hu.
    apply (proj1 (resolve_ok UserShare now code _ _ url Hl1 Hs
                    ltac:(simpl; apply Z.ltb_ge; lia) Hu)).
  - intro Hs.
    pose proof (resolve_unavailable UserShare now code _ _ Hl1 Hs) as E1.
    cbn [resolve_short_code] in E1. now rewrite E1.
Qed.

(** ** More on the bulk sweep *)

Lemma updateAllFileExpiry_run now w :
  files w <> [] ->
  NoDup (map File._id (files w)) ->
  updateAllFileExpiry now w
    = (respond 200
         (UpdatedFiles "All file expiries updated successfully"
            (map (swept now) (filter live (files w)))),
       with_files (map (swept now) (files w)) w).
Proof.
  intros Hne Hnd.
  assert (Hlen : (List.length (files w) =? 0)%nat = false).
  { destruct (files w); [now elim Hne | reflexivity]. }
  unfold updateAllFileExpiry, try_catch, bind, find_all.
  cbn [coll FileModel]. rewrite Hlen. unfold ret at 1.
  rewrite (updateAllFileExpiry_loop_run now (files w) [] [] w);
    [reflexivity | reflexivity | exact Hnd].
Qed.

Lemma swept_twice now d : swept now (swept now d) = swept now d.
Proof.
  destruct (live d) eqn:Hl.
  - destruct (Js.before_now (File.expiresAt d) now) eqn:He.
    + assert (E : swept now d
                  = File.set_hasExpiry true (File.set_status "expired" d)).
      { unfold swept. now rewrite Hl, He. }
      rewrite E.
      assert (Hl2 : live (File.set_hasExpiry true
                            (File.set_status "expired" d)) = true)
        by reflexivity.
      assert (He2 : Js.before_now
                      (File.expiresAt
                         (File.set_hasExpiry true
                            (File.set_status "expired" d))) now = true)
        by exact He.
      unfold swept. now rewrite Hl2, He2.
    + assert (E : swept now d
                  = File.set_hasExpiry true
                      (File.set_expiresAt (Some (now + ten_days)) d)).
      { unfold swept. now rewrite Hl, He. }
      rewrite E.
      assert (Hl2 : live (File.set_hasExpiry true
                            (File.set_expiresAt (Some (now + ten_days)) d))
                    = true) by exact Hl.
      assert (He2 : Js.before_now
                      (File.expiresAt
                         (File.set_hasExpiry true
                            (File.set_expiresAt (Some (now + ten_days)) d)))
                      now = false).
      { simpl. apply Z.ltb_ge. unfold ten_days. lia. }
      unfold swept. now rewrite Hl2, He2.
  - assert (E : swept now d = d) by (unfold swept; now rewrite Hl).
    now rewrite !E.
Qed.

(** X8.  Run twice at the same clock reading, [updateAllFileExpiry] gives
    the second time the response and the store of the first time: the
    sweep is idempotent (the [_id]s of the collection being distinct). *)
Theorem updateAllFileExpiry_idempotent now w :
  files w <> [] ->
  NoDup (map File._id (files w)) ->
  updateAllFileExpiry now (snd (updateAllFileExpiry now w))
    = updateAllFileExpiry now w.
Proof.
  intros Hne Hnd. rewrite (updateAllFileExpiry_run now w Hne Hnd).
  cbn [snd].
  rewrite updateAllFileExpiry_run.
  - cbn [files with_files]. rewrite with_files_with_files.
    rewrite filter_live_swept, !map_map.
    f_equal; [f_equal; f_equal|f_equal];
      apply map_ext; intro d; apply swept_twice.
  - cbn [files with_files]. destruct (files w); [now elim Hne | discriminate].
  - cbn [files with_files]. rewrite map_map.
    erewrite map_ext; [exact Hnd|]. intro d. apply swept_id.
Qed.

Lemma swept_active_downloadable now d :
  File.status (swept now d) = "active" -> downloadable now (swept now d).
Proof.
  unfold swept. destruct (live d) eqn:Hl.
  - destruct (Js.before_now (File.expiresAt d) now) eqn:He; simpl.
    + discriminate.
    + intro Hs. split; [exact Hs|]. right. exists (now + ten_days).
      split; [reflexivity|]. unfold ten_days. lia.
  - unfold live in Hl. apply negb_false_iff in Hl.
    apply String.eqb_eq in Hl. rewrite Hl. discriminate.
Qed.

Lemma swept_hasExpiry now d :
  live (swept now d) = true -> File.hasExpiry (swept now d) = true.
Proof.
  rewrite swept_live. unfold swept. intro Hl. rewrite Hl.
  now destruct (Js.before_now (File.expiresAt d) now).
Qed.

(** X9.  After a sweep at time [now] every stored record that is active
    is downloadable at [now] (its expiry lies ten days ahead), and every
    record that is not deleted has [hasExpiry] set. *)
Theorem updateAllFileExpiry_leaves_active_unexpired now w :
  files w <> [] ->
  NoDup (map File._id (files w)) ->
  Forall (fun d =>
            (File.status d = "active" -> downloadable now d) /\
            (live d = true -> File.hasExpiry d = true))
         (files (snd (updateAllFileExpiry now w))).
Proof.
  intros Hne Hnd. rewrite (updateAllFileExpiry_run now w Hne Hnd).
  cbn [snd files with_files]. apply Forall_forall. intros x Hx.
  apply in_map_iff in Hx. destruct Hx as [d [<- _]]. split.
  - apply swept_active_downloadable.
  - apply swept_hasExpiry.
Qed.

(** ** What an upload creates *)

(** A property [P] of a created record in a world, established by the
    body of the loop ([made]) and kept by later passes through it
    ([kept]), holds of every record the loop has created. *)
Lemma uploadFiles_loop_keeps (P : File.doc -> World -> Prop) now b fs :
  (forall file w d0,
     P d0 w -> P d0 (snd (uploadFiles_each env now b file w))) ->
  forall saved user w d0,
    P d0 w -> P d0 (snd (uploadFiles_loop env now b fs saved user w)).
Proof.
  intro P_kept. induction fs as [|file rest IH]; intros saved user w d0 H0.
  - exact H0.
  - rewrite uploadFiles_loop_cons.
    pose proof (P_kept file w d0 H0) as Hstep.
    destruct (uploadFiles_each env now b file w) as [[d|r|e] w1];
      cbn [snd] in *; [now apply IH | exact Hstep | exact Hstep].
Qed.

Lemma uploadFilesGuest_loop_keeps (P : File.doc -> World -> Prop) now b fs :
  (forall file w d0,
     P d0 w -> P d0 (snd (uploadFilesGuest_each env now b file w))) ->
  forall saved w d0,
    P d0 w -> P d0 (snd (uploadFilesGuest_loop env now b fs saved w)).
Proof.
  intro P_kept. induction fs as [|file rest IH]; intros saved w d0 H0.
  - exact H0.
  - rewrite uploadFilesGuest_loop_cons.
    pose proof (P_kept file w d0 H0) as Hstep.
    destruct (uploadFilesGuest_each env now b file w) as [[d|r|e] w1];
      cbn [snd] in *; [now apply IH | exact Hstep | exact Hstep].
Qed.

Lemma uploadFiles_loop_made (P : File.doc -> World -> Prop) now b fs :
  (forall file w,
     match uploadFiles_each env now b file w with
     | (Next d, w') => P d w'
     | _ => True
     end) ->
  (forall file w d0,
     P d0 w -> P d0 (snd (uploadFiles_each env now b file w))) ->
  forall saved user w,
  exists created,
    files (snd (uploadFiles_loop env now b fs saved user w))
      = (files w ++ created)%list /\
    Forall (fun d => P d (snd (uploadFiles_loop env now b fs saved user w)))
           created.
Proof.
  intros P_made P_kept.
  induction fs as [|file rest IH]; intros saved user w.
  - exists []. simpl. rewrite app_nil_r. split; [reflexivity | constructor].
  - rewrite uploadFiles_loop_cons.
    pose proof (upload_each_run UserShare now b file w) as Hrun.
    pose proof (P_made file w) as Hmade.
    cbn [upload_each model_of coll FileModel] in Hrun.
    destruct (uploadFiles_each env now b file w) as [[d|r|e] w1].
    + destruct Hrun as [Hw1 _].
      match goal with
      | |- context [uploadFiles_loop env now b rest ?s ?u w1] =>
          destruct (IH s u w1) as [created [Hc Hf]];
          pose proof (uploadFiles_loop_keeps P now b rest P_kept s u w1 d
                        Hmade) as Hd
      end.
      exists (d :: created). rewrite Hc, Hw1, <- app_assoc.
      split; [reflexivity|]. constructor; assumption.
    + exists []. cbn [snd]. rewrite app_nil_r.
      split; [exact Hrun | constructor].
    + exists []. cbn [snd]. rewrite app_nil_r.
      split; [exact Hrun | constructor].
Qed.

Lemma uploadFilesGuest_loop_made (P : File.doc -> World -> Prop) now b fs :
  (forall file w,
     match uploadFilesGuest_each env now b file w with
     | (Next d, w') => P d w'
     | _ => True
     end) ->
  (forall file w d0,
     P d0 w -> P d0 (snd (uploadFilesGuest_each env now b file w))) ->
  forall saved w,
  exists created,
    guestFiles (snd (uploadFilesGuest_loop env now b fs saved w))
      = (guestFiles w ++ created)%list /\
    Forall (fun d => P d (snd (uploadFilesGuest_loop env now b fs saved w)))
           created.
Proof.
  intros P_made P_kept.
  induction fs as [|file rest IH]; intros saved w.
  - exists []. simpl. rewrite app_nil_r. split; [reflexivity | constructor].
  - rewrite uploadFilesGuest_loop_cons.
    pose proof (upload_each_run GuestShare now b file w) as Hrun.
    pose proof (P_made file w) as Hmade.
    cbn [upload_each model_of coll GuestFileModel] in Hrun.
    destruct (uploadFilesGuest_each env now b file w) as [[d|r|e] w1].
    + destruct Hrun as [Hw1 _].
      destruct (IH (saved ++ [d])%list w1) as [created [Hc Hf]].
      pose proof (uploadFilesGuest_loop_keeps P now b rest P_kept
                    (saved ++ [d])%list w1 d Hmade) as Hd.
      exists (d :: created). rewrite Hc, Hw1, <- app_assoc.
      split; [reflexivity|]. constructor; assumption.
    + exists []. cbn [snd]. rewrite app_nil_r.
      split; [exact Hrun | constructor].
    + exists []. cbn [snd]. rewrite app_nil_r.
      split; [exact Hrun | constructor].
Qed.

(** The same for the handlers, when [P] does not look at the users. *)
Lemma upload_made (P : File.doc -> World -> Prop) k now b fs w :
  (forall file w,
     match upload_each env k now b file w with
     | (Next d, w') => P d w'
     | _ => True
     end) ->
  (forall file w d0,
     P d0 w -> P d0 (snd (upload_each env k now b file w))) ->
  (forall d w us, P d w -> P d (with_users us w)) ->
  exists created,
    coll (model_of k) (snd (upload env k now fs b w))
      = (coll (model_of k) w ++ created)%list /\
    Forall (fun d => P d (snd (upload env k now fs b w))) created.
Proof.
  intros P_made P_kept P_users.
  destruct fs as [|file rest].
  - exists []. destruct k; simpl; rewrite app_nil_r;
      (split; [reflexivity | constructor]).
  - destruct k; unfold upload, uploadFiles, uploadFilesGuest;
      cbn [List.length Nat.eqb coll model_of FileModel GuestFileModel];
      unfold try_catch, bind, User_findById.
    + destruct (find _ (users w)) as [u|] eqn:Hu.
      * destruct (uploadFiles_loop_made P now b (file :: rest) P_made P_kept
                    [] u w) as [created [Hc Hf]].
        exists created.
        destruct (uploadFiles_loop env now b (file :: rest) [] u w)
          as [[r|r|e] w1]; cbn [fst snd] in *;
          unfold User_save, modify, ret; cbn [fst snd files with_users].
        -- split; [exact Hc|].
           eapply Forall_impl; [|exact Hf]. intros d Hd. now apply P_users.
        -- split; [exact Hc | exact Hf].
        -- split; [exact Hc | exact Hf].
      * exists []. simpl. rewrite app_nil_r.
        split; [reflexivity | constructor].
    + destruct (uploadFilesGuest_loop_made P now b (file :: rest) P_made
                  P_kept [] w) as [created [Hc Hf]].
      exists created.
      destruct (uploadFilesGuest_loop env now b (file :: rest) [] w)
        as [[r|r|e] w1]; cbn [fst snd] in *; unfold ret; cbn [fst snd];
        (split; [exact Hc | exact Hf]).
Qed.

Lemma upload_each_fresh k now b file w :
  match upload_each env k now b file w with
  | (Next d, _) => fresh_share env k b d
  | _ => True
  end.
Proof.
  unfold fresh_share.
  destruct k; run_upload;
    destruct (s3_error env _); simpl; try exact I;
    destruct (Js.strict_eq_str (Upload.isPassword b) "true"); simpl;
    try (destruct (Upload.password b); simpl; try exact I);
    destruct (Js.strict_eq_str (Upload.hasExpiry b) "true"); simpl;
    date_cases; try exact I;
    repeat match goal with
           | |- _ /\ _ => split
           | |- _ <-> _ => split
           end;
    try reflexivity; try discriminate;
    try (intros _; discriminate);
    try (intro H; now elim H);
    try (eexists; reflexivity);
    try (intros _; eexists; reflexivity).
Qed.

Lemma put_keeps_key (objs : list S3Object) o o0 :
  In o0 objs ->
  exists o',
    In o' (filter (fun x => negb ((Bucket x =? Bucket o)%string
                                  && (Key x =? Key o)%string)) objs
           ++ [o])%list /\
    Bucket o' = Bucket o0 /\ Key o' = Key o0.
Proof.
  intro Hin.
  destruct ((Bucket o0 =? Bucket o)%string && (Key o0 =? Key o)%string)
    eqn:E.
  - apply andb_true_iff in E. destruct E as [E1 E2].
    apply String.eqb_eq in E1, E2. exists o. split.
    + apply in_or_app. right. now left.
    + now split.
  - exists o0. split; [|now split].
    apply in_or_app. left. apply filter_In. split; [exact Hin|].
    now rewrite E.
Qed.

Lemma upload_each_stores_blob k now b file w :
  match upload_each env k now b file w with
  | (Next d, w') => has_blob env d w'
  | _ => True
  end.
Proof.
  unfold has_blob.
  destruct k; run_upload;
    destruct (s3_error env _); simpl; try exact I;
    destruct (Js.strict_eq_str (Upload.isPassword b) "true"); simpl;
    try (destruct (Upload.password b); simpl; try exact I);
    destruct (Js.strict_eq_str (Upload.hasExpiry b) "true"); simpl;
    date_cases; try exact I;
    (eexists; split; [apply in_or_app; right; left; reflexivity|];
     split; reflexivity).
Qed.

Lemma upload_each_keeps_blob k now b file w d0 :
  has_blob env d0 w -> has_blob env d0 (snd (upload_each env k now b file w)).
Proof.
  unfold has_blob. intros [o0 [Hin [Hb Hk]]].
  pose proof (put_keeps_key (objects w)
                {| Bucket := AWS_BUCKET_NAME env;
                   Key := buildKey
                            (replace_whitespace env (Upload.originalname file)
                             ++ "_" ++ shortid_generate env (ticks w)
                             ++ or_else
                                  (extname env
                                     (replace_whitespace env
                                        (Upload.originalname file))) "");
                   Body := Upload.buffer file;
                   ContentType := Upload.mimetype file |} o0 Hin)
    as [o' [Hin' [Hb' Hk']]].
  simpl in Hin'.
  destruct k; run_upload;
    destruct (s3_error env _); simpl;
    try (exists o0; now repeat split);
    destruct (Js.strict_eq_str (Upload.isPassword b) "true"); simpl;
    try (destruct (Upload.password b); simpl);
    destruct (Js.strict_eq_str (Upload.hasExpiry b) "true"); simpl;
    try date_cases;
    (exists o'; split; [exact Hin' | split; congruence]).
Qed.

(** X10.  Every record an upload creates is active with a download count
    of zero, carries a short link in the namespace of its kind ([/f/] or
    [/g/]), is password-protected exactly when [isPassword] is ['true']
    (and then has a hash), points at the public URL of its blob, and is
    owned by [userId] (user) or by a [guest_] label (guest). *)
Theorem upload_creates_fresh_shares k now fs b w :
  exists created,
    coll (model_of k) (snd (upload env k now fs b w))
      = (coll (model_of k) w ++ created)%list /\
    Forall (fresh_share env k b) created.
Proof.
  apply (upload_made (fun d _ => fresh_share env k b d) k now b fs w).
  - intros file w0. apply upload_each_fresh.
  - intros file w0 d0 H. exact H.
  - intros d w0 us H. exact H.
Qed.

(** X11.  Every record an upload creates has its blob in the bucket, under
    the key [file-share-app/<name>], when the request ends, however it
    ends. *)
Theorem upload_stores_blob_of_each_record k now fs b w :
  exists created,
    coll (model_of k) (snd (upload env k now fs b w))
      = (coll (model_of k) w ++ created)%list /\
    Forall (fun d => has_blob env d (snd (upload env k now fs b w))) created.
Proof.
  apply (upload_made (has_blob env) k now b fs w).
  - intros file w0. apply upload_each_stores_blob.
  - intros file w0 d0. apply upload_each_keeps_blob.
  - intros d w0 us H. exact H.
Qed.

(** ** The owner's upload counters *)

Lemma mimetype_classes_exclusive m :
  (prefix "image/" m = true -> prefix "video/" m = false /\
                               prefix "application/" m = false) /\
  (prefix "video/" m = true -> prefix "application/" m = false).
Proof.
  destruct m as [|c m']; cbn [prefix]; [split; discriminate|].
  destruct (ascii_dec "i" c) as [<-|Hi].
  - destruct (ascii_dec "v" "i") as [E|_]; [discriminate E|].
    destruct (ascii_dec "a" "i") as [E|_]; [discriminate E|].
    split; [intros _; split; reflexivity | discriminate].
  - split; [discriminate|].
    destruct (ascii_dec "v" c) as [<-|Hv]; [|discriminate].
    destruct (ascii_dec "a" "v") as [E|_]; [discriminate E|].
    intros _; reflexivity.
Qed.

Lemma upload_each_never_returns k now b file w r :
  fst (upload_each env k now b file w) <> Return r.
Proof.
  destruct k; run_upload;
    destruct (s3_error env _); simpl; try discriminate;
    destruct (Js.strict_eq_str (Upload.isPassword b) "true"); simpl;
    try (destruct (Upload.password b); simpl; try discriminate);
    destruct (Js.strict_eq_str (Upload.hasExpiry b) "true"); simpl;
    try date_cases;
    discriminate.
Qed.

Lemma uploadFiles_loop_never_returns now b fs :
  forall saved user w r,
    fst (uploadFiles_loop env now b fs saved user w) <> Return r.
Proof.
  induction fs as [|file rest IH]; intros saved user w r.
  - discriminate.
  - rewrite uploadFiles_loop_cons.
    pose proof (upload_each_never_returns UserShare now b file w) as Hn.
    cbn [upload_each] in Hn.
    destruct (uploadFiles_each env now b file w) as [[d|r0|e] w1].
    + apply IH.
    + now elim (Hn r0).
    + discriminate.
Qed.

Lemma upload_each_users k now b file w :
  users (snd (upload_each env k now b file w)) = users w.
Proof.
  destruct k; run_upload;
    destruct (s3_error env _); simpl; try reflexivity;
    destruct (Js.strict_eq_str (Upload.isPassword b) "true"); simpl;
    try (destruct (Upload.password b); simpl; try reflexivity);
    destruct (Js.strict_eq_str (Upload.hasExpiry b) "true"); simpl;
    try date_cases;
    reflexivity.
Qed.

Lemma count_type_cons p file rest :
  count_type p (file :: rest)
    = (if prefix p (Upload.mimetype file) then 1 else 0) + count_type p rest.
Proof.
  unfold count_type. simpl.
  destruct (prefix p (Upload.mimetype file)); simpl List.length; lia.
Qed.

Lemma uploadFiles_loop_counts now b fs :
  forall saved user w,
    users (snd (uploadFiles_loop env now b fs saved user w)) = users w /\
    (forall r,
       fst (uploadFiles_loop env now b fs saved user w) = Next r ->
       User._id (snd r) = User._id user /\
       User.fullname (snd r) = User.fullname user /\
       User.totalDownloads (snd r) = User.totalDownloads user /\
       User.totalUploads (snd r)
         = User.totalUploads user + Z.of_nat (List.length fs) /\
       User.imageCount (snd r)
         = User.imageCount user + count_type "image/" fs /\
       User.videoCount (snd r)
         = User.videoCount user + count_type "video/" fs /\
       User.documentCount (snd r)
         = User.documentCount user + count_type "application/" fs).
Proof.
  induction fs as [|file rest IH]; intros saved user w.
  - split; [reflexivity|]. intros r E. inversion E; subst. simpl.
    unfold count_type. simpl. repeat split; lia.
  - rewrite uploadFiles_loop_cons.
    pose proof (upload_each_users UserShare now b file w) as Hu.
    cbn [upload_each] in Hu.
    destruct (uploadFiles_each env now b file w) as [[d|r0|e] w1];
      cbn [snd] in Hu.
    + match goal with
      | |- context [uploadFiles_loop env now b rest ?s ?u w1] =>
          destruct (IH s u w1) as [Hus Hr]
      end.
      split; [now rewrite Hus|].
      intros r E. specialize (Hr r E).
      rewrite !count_type_cons.
      change (List.length (file :: rest)) with (S (List.length rest)).
      destruct (mimetype_classes_exclusive (Upload.mimetype file))
        as [Hi Hv].
      destruct (prefix "image/" (Upload.mimetype file)) eqn:Ei.
      * destruct (Hi eq_refl) as [Ev Ea]. rewrite Ev, Ea.
        simpl in Hr. destruct Hr as (H1 & H2 & H3 & H4 & H5 & H6 & H7).
        rewrite H1, H2, H3, H4, H5, H6, H7.
        rewrite Nat2Z.inj_succ. repeat split; lia.
      * destruct (prefix "video/" (Upload.mimetype file)) eqn:Ev.
        -- rewrite (Hv eq_refl).
           simpl in Hr. destruct Hr as (H1 & H2 & H3 & H4 & H5 & H6 & H7).
           rewrite H1, H2, H3, H4, H5, H6, H7.
           rewrite Nat2Z.inj_succ. repeat split; lia.
        -- destruct (prefix "application/" (Upload.mimetype file)) eqn:Ea;
             simpl in Hr; destruct Hr as (H1 & H2 & H3 & H4 & H5 & H6 & H7);
             rewrite H1, H2, H3, H4, H5, H6, H7;
             rewrite Nat2Z.inj_succ; repeat split; lia.
    + split; [exact Hu | discriminate].
    + split; [exact Hu | discriminate].
Qed.

(** X12.  A user upload that answers 201 has added the number of files to
    the owner's [totalUploads] and, to [imageCount], [videoCount] and
    [documentCount], the number of files whose mimetype starts with
    [image/], [video/] and [application/]; [totalDownloads] is kept.  An
    upload that answers anything else (400, 500) leaves the users as they
    were, whatever records it has created. *)
Theorem uploadFiles_counts_uploads now fs b w u :
  find (fun x => (User._id x =? Upload.userId b)%string) (users w) = Some u ->
  (statusCode (fst (uploadFiles env now fs b w)) = 201 ->
   exists u',
     find (fun x => (User._id x =? Upload.userId b)%string)
          (users (snd (uploadFiles env now fs b w))) = Some u' /\
     User.totalUploads u' = User.totalUploads u + Z.of_nat (List.length fs) /\
     User.imageCount u' = User.imageCount u + count_type "image/" fs /\
     User.videoCount u' = User.videoCount u + count_type "video/" fs /\
     User.documentCount u'
       = User.documentCount u + count_type "application/" fs /\
     User.totalDownloads u' = User.totalDownloads u) /\
  (statusCode (fst (uploadFiles env now fs b w)) <> 201 ->
   users (snd (uploadFiles env now fs b w)) = users w).
Proof.
  intro Hf. destruct fs as [|file rest].
  - simpl. split; [discriminate | reflexivity].
  - unfold uploadFiles. cbn [List.length Nat.eqb].
    unfold try_catch, bind, User_findById. rewrite Hf.
    destruct (uploadFiles_loop_counts now b (file :: rest) [] u w)
      as [Hus Hr].
    pose proof (uploadFiles_loop_never_returns now b (file :: rest) [] u w)
      as Hret.
    destruct (uploadFiles_loop env now b (file :: rest) [] u w)
      as [[r|r|e] w1]; cbn [fst snd] in *;
      unfold User_save, modify, ret; cbn [fst snd users with_users].
    + destruct (Hr r eq_refl) as (H1 & H2 & H3 & H4 & H5 & H6 & H7).
      split; [|intro H; now elim H].
      intros _. exists (snd r). rewrite Hus.
      split; [now apply find_user_replace with (u := u)|].
      repeat split; assumption.
    + now elim (Hret r).
    + split; [discriminate | intros _; exact Hus].
Qed.

(** X13.  An upload without files is refused with 400 before anything
    else happens, and a user upload for an unknown [userId] with 404: in
    both cases no blob is stored, no record created, no random value
    drawn. *)
Theorem upload_refused_before_storing k now b w :
  upload env k now [] b w = (respond 400 (ErrorBody "No files uploaded"), w) /\
  (forall fs,
     fs <> [] ->
     find (fun x => (User._id x =? Upload.userId b)%string) (users w) = None ->
     uploadFiles env now fs b w
       = (respond 404 (ErrorBody "User not found"), w)).
Proof.
  split.
  - now destruct k.
  - intros fs Hne Hf. destruct fs as [|file rest]; [now elim Hne|].
    unfold uploadFiles. cbn [List.length Nat.eqb].
    unfold try_catch, bind, User_findById. now rewrite Hf.
Qed.

(** ** After a deletion *)

Lemma find_id_remove_same id c :
  NoDup (map File._id c) -> find (has_id id) (remove_doc id c) = None.
Proof.
  intro Hnd. induction c as [|x rest IH]; simpl; [reflexivity|].
  inversion Hnd as [|u us Hnot Hnd']; subst.
  destruct (has_id id x) eqn:Hx; simpl.
  - apply has_id_true in Hx. subst id.
    destruct (find (has_id (File._id x)) rest) as [y|] eqn:Hy;
      [|reflexivity].
    elim Hnot. apply find_some in Hy. destruct Hy as [Hin Hy].
    apply has_id_true in Hy. rewrite <- Hy. now apply in_map.
  - rewrite Hx. now apply IH.
Qed.

Lemma find_id_remove_other id id' c :
  id' <> id ->
  find (has_id id') (remove_doc id c) = find (has_id id') c.
Proof.
  intro Hne. induction c as [|x rest IH]; simpl; [reflexivity|].
  destruct (has_id id x) eqn:Hx; simpl.
  - apply has_id_true in Hx.
    assert (H : has_id id' x = false).
    { apply String.eqb_neq. congruence. }
    now rewrite H.
  - now rewrite IH.
Qed.

(** X14.  After [deleteFile] has answered 200 (the [_id]s being
    distinct) the record is gone for good: the same request now answers
    NotFound (404), not AlreadyDeleted, the bucket holds no blob under
    the record's key, and every other record is found as before. *)
Theorem deleteFile_removes_for_good fileId w d :
  find (has_id fileId) (files w) = Some d ->
  NoDup (map File._id (files w)) ->
  statusCode (fst (deleteFile env fileId w)) = 200 ->
  deleteFile env fileId (snd (deleteFile env fileId w))
    = (respond 404 (ErrorBody "File not found"),
       snd (deleteFile env fileId w)) /\
  ~ has_blob env d (snd (deleteFile env fileId w)) /\
  (forall id',
     id' <> fileId ->
     find (has_id id') (files (snd (deleteFile env fileId w)))
       = find (has_id id') (files w)).
Proof.
  intros Hf Hnd H200.
  assert (E : deleteFile env fileId w
              = (respond 200 (MessageBody "File deleted successfully"),
                 with_files (remove_doc fileId (files w))
                   (with_objects
                      (filter
                         (fun x =>
                            negb ((Bucket x =? AWS_BUCKET_NAME env)%string
                                  && (Key x =? buildKey (File.name d))%string))
                         (objects w))
                      w))).
  { revert H200. unfold deleteFile, send. run. rewrite Hf.
    destruct (File.status d =? "deleted")%string; simpl; [discriminate|].
    destruct (s3_error env _) as [e|]; simpl; [discriminate|].
    reflexivity. }
  rewrite E. cbn [snd]. split; [|split].
  - unfold deleteFile. run.
    now rewrite (find_id_remove_same fileId (files w) Hnd).
  - unfold has_blob. simpl. intros [o [Hin [Hb Hk]]].
    apply filter_In in Hin. destruct Hin as [_ Hin].
    rewrite Hb, Hk, !String.eqb_refl in Hin. discriminate Hin.
  - intros id' Hne. now apply find_id_remove_other.
Qed.

(** ** Resolving a share link *)

(** X15.  [resolveShareLink] has no status gate and counts nothing.  For a
    record found under [BASE_URL/f/code]: if its [expiresAt] has passed
    the stored status becomes ['expired'] whatever it was, with 410;
    otherwise the answer is 200 with the record's description, its stored
    status included, and the world is unchanged.  An unknown code gets
    404. *)
Theorem resolveShareLink_only_expires now code w :
  (statusCode (fst (resolveShareLink env now code w)) <> 410 ->
   snd (resolveShareLink env now code w) = w) /\
  (find (has_shortUrl (BASE_URL env ++ "/f/" ++ code)) (files w) = None ->
   fst (resolveShareLink env now code w)
     = respond 404 (ErrorBody "Invalid or expired link")) /\
  (forall d,
     find (has_shortUrl (BASE_URL env ++ "/f/" ++ code)) (files w) = Some d ->
     (past now d ->
      statusCode (fst (resolveShareLink env now code w)) = 410 /\
      find (has_shortUrl (BASE_URL env ++ "/f/" ++ code))
           (files (snd (resolveShareLink env now code w)))
        = Some (File.set_status "expired" d)) /\
     (~ past now d ->
      fst (resolveShareLink env now code w)
        = respond 200
            (ShareLink (File._id d) (File.name d) (File.size d)
               (or_else (File.type d) "file") (File.path d)
               (File.isPasswordProtected d) (File.expiresAt d)
               (or_else (File.status d) "active")))).
Proof.
  split; [|split].
  - unfold resolveShareLink. run.
    destruct (find _ (files w)) as [d|]; simpl; [|reflexivity].
    destruct (Js.before_now (File.expiresAt d) now); simpl;
      [intro H; now elim H | reflexivity].
  - intro Hf. now rewrite (resolveShareLink_not_found now code w Hf).
  - intros d Hf. split.
    + intro Hp. apply before_now_true in Hp.
      unfold resolveShareLink. run. rewrite Hf, Hp. simpl.
      split; [reflexivity|].
      apply find_shortUrl_replace with (d := d); auto.
      simpl. now apply find_has_shortUrl in Hf.
    + intro Hp. apply before_now_false in Hp.
      now rewrite (resolveShareLink_found now code w d Hf Hp).
Qed.

(** ** The QR code *)


(** ** Invariants of the controller *)

Lemma descends_refl d : descends d d.
Proof. unfold descends. repeat split; [lia | now left]. Qed.

Lemma evolves_refl c : evolves c c.
Proof. intros x Hx. left. exists x. split; [exact Hx | apply descends_refl]. Qed.

Lemma In_replace_doc d' c x :
  In x (replace_doc d' c) -> In x c \/ x = d'.
Proof.
  induction c as [|y rest IH]; simpl; [tauto|].
  destruct (has_id (File._id d') y); simpl; intros [E|Hin]; auto.
  - destruct (IH Hin); auto.
Qed.

Lemma In_remove_doc id c x : In x (remove_doc id c) -> In x c.
Proof.
  induction c as [|y rest IH]; simpl; [tauto|].
  destruct (has_id id y); simpl; [now right|].
  intros [E|Hin]; auto.
Qed.

Lemma evolves_replace c0 c d' :
  evolves c0 c ->
  (exists d0, In d0 c0 /\ descends d0 d') ->
  evolves c0 (replace_doc d' c).
Proof.
  intros Hc Hd x Hx. destruct (In_replace_doc _ _ _ Hx) as [Hin| ->].
  - now apply Hc.
  - now left.
Qed.

Lemma evolves_replace_found (f : File.doc -> bool) c d d' :
  find f c = Some d ->
  descends d d' ->
  evolves c (replace_doc d' c).
Proof.
  intros Hf Hd. apply evolves_replace.
  - apply evolves_refl.
  - exists d. split; [|exact Hd]. apply find_some in Hf. tauto.
Qed.

Lemma evolves_remove c id : evolves c (remove_doc id c).
Proof.
  intros x Hx. left. exists x.
  split; [now apply In_remove_doc in Hx | apply descends_refl].
Qed.

Lemma evolves_app c created :
  Forall newly_created created -> evolves c (c ++ created).
Proof.
  intros Hf x Hx. apply in_app_or in Hx. destruct Hx as [Hx|Hx].
  - left. exists x. split; [exact Hx | apply descends_refl].
  - right. rewrite Forall_forall in Hf. now apply Hf.
Qed.

Lemma swept_descends now d : descends d (swept now d).
Proof.
  unfold swept, descends. destruct (live d).
  - destruct (Js.before_now (File.expiresAt d) now); simpl;
      repeat split; try lia; [right; now left | now left].
  - repeat split; [lia | now left].
Qed.

Lemma updateAllFileExpiry_loop_evolves now c0 todo :
  forall acc w,
    (forall x, In x todo -> In x c0) ->
    evolves c0 (files w) ->
    evolves c0 (files (snd (updateAllFileExpiry_loop now todo acc w))) /\
    guestFiles (snd (updateAllFileExpiry_loop now todo acc w)) = guestFiles w /\
    users (snd (updateAllFileExpiry_loop now todo acc w)) = users w /\
    objects (snd (updateAllFileExpiry_loop now todo acc w)) = objects w /\
    (forall r, fst (updateAllFileExpiry_loop now todo acc w) <> Return r) /\
    (forall e, fst (updateAllFileExpiry_loop now todo acc w) <> Throw e).
Proof.
  induction todo as [|x rest IH]; intros acc w Hsub Hev.
  - simpl. repeat split; try assumption; discriminate.
  - rewrite updateAllFileExpiry_loop_cons.
    assert (Hrest : forall y, In y rest -> In y c0)
      by (intros y Hy; apply Hsub; now right).
    destruct (live x).
    + unfold bind, save, modify. cbn [coll with_coll FileModel].
      destruct (IH (acc ++ [swept now x])%list
                   (with_files (replace_doc (swept now x) (files w)) w)
                   Hrest) as (H1 & H2 & H3 & H4 & H5 & H6).
      * cbn [files with_files]. apply evolves_replace.
        -- exact Hev.
        -- exists x. split; [apply Hsub; now left | apply swept_descends].
      * repeat split; assumption.
    + now apply IH.
Qed.

Ltac break_matches :=
  repeat match goal with
         | |- context [match ?x with _ => _ end] =>
             lazymatch x with
             | context [match _ with _ => _ end] => fail
             | _ => destruct x eqn:?; simpl
             end
         end.

Ltac found_evolves :=
  first
    [ apply evolves_refl
    | apply evolves_remove
    | eapply evolves_replace_found;
      [ eassumption
      | unfold descends; simpl; repeat split; try lia;
        first [ now left | right; now left | right; right; now left
              | right; right; right; reflexivity ] ] ].

Lemma upload_each_frame k now b file w :
  users (snd (upload_each env k now b file w)) = users w /\
  (k = UserShare ->
   guestFiles (snd (upload_each env k now b file w)) = guestFiles w) /\
  (k = GuestShare ->
   files (snd (upload_each env k now b file w)) = files w).
Proof.
  split; [apply upload_each_users|].
  destruct k; run_upload;
    destruct (s3_error env _); simpl;
    try (split; [reflexivity | discriminate]);
    try (split; [discriminate | reflexivity]);
    destruct (Js.strict_eq_str (Upload.isPassword b) "true"); simpl;
    try (destruct (Upload.password b); simpl);
    try (split; [reflexivity | discriminate]);
    try (split; [discriminate | reflexivity]);
    destruct (Js.strict_eq_str (Upload.hasExpiry b) "true"); simpl;
    try date_cases;
    try (split; [reflexivity | discriminate]);
    try (split; [discriminate | reflexivity]).
Qed.

Lemma uploadFiles_frame now fs b w :
  guestFiles (snd (uploadFiles env now fs b w)) = guestFiles w.
Proof.
  destruct fs as [|file rest]; [reflexivity|].
  unfold uploadFiles. cbn [List.length Nat.eqb].
  unfold try_catch, bind, User_findById.
  destruct (find _ (users w)) as [u|]; [|reflexivity].
  pose proof (uploadFiles_loop_keeps
                (fun _ w' => guestFiles w' = guestFiles w) now b
                (file :: rest)
                (fun f w0 d0 H =>
                   eq_trans
                     (proj1 (proj2 (upload_each_frame UserShare now b f w0))
                            eq_refl) H)
                [] u w report eq_refl) as H.
  destruct (uploadFiles_loop env now b (file :: rest) [] u w)
    as [[r|r|e] w1]; exact H.
Qed.

Lemma uploadFilesGuest_frame now fs b w :
  files (snd (uploadFilesGuest env now fs b w)) = files w /\
  users (snd (uploadFilesGuest env now fs b w)) = users w.
Proof.
  destruct fs as [|file rest]; [split; reflexivity|].
  unfold uploadFilesGuest. cbn [List.length Nat.eqb].
  unfold try_catch, bind.
  pose proof (uploadFilesGuest_loop_keeps
                (fun _ w' => files w' = files w /\ users w' = users w) now b
                (file :: rest)
                (fun f w0 d0 H =>
                   conj
                     (eq_trans
                        (proj2 (proj2 (upload_each_frame GuestShare now b f
                                         w0)) eq_refl) (proj1 H))
                     (eq_trans
                        (proj1 (upload_each_frame GuestShare now b f w0))
                        (proj2 H)))
                [] w report (conj eq_refl eq_refl)) as H.
  destruct (uploadFilesGuest_loop env now b (file :: rest) [] w)
    as [[r|r|e] w1]; exact H.
Qed.

Ltac run_handler :=
  unfold downloadInfo, guestDownloadInfo, downloadFile, deleteFile,
         updateFileStatus, updateFileExpiry, updateFilePassword,
         generateShareShortenLink, getDownloadCount, resolveShareLink,
         verifyFilePassword, verifyGuestFilePassword,
         send, hash, compare, valid_date, hours_from;
  run.

Lemma updateAllFileExpiry_world now w :
  evolves (files w) (files (snd (updateAllFileExpiry now w))) /\
  guestFiles (snd (updateAllFileExpiry now w)) = guestFiles w /\
  users (snd (updateAllFileExpiry now w)) = users w /\
  objects (snd (updateAllFileExpiry now w)) = objects w.
Proof.
  unfold updateAllFileExpiry, try_catch, bind, find_all.
  cbn [coll FileModel].
  destruct (List.length (files w) =? 0)%nat; unfold reply, ret.
  - repeat split. apply evolves_refl.
  - destruct (updateAllFileExpiry_loop_evolves now (files w) (files w) [] w
                (fun x H => H) (evolves_refl _))
      as (H1 & H2 & H3 & H4 & H5 & H6).
    destruct (updateAllFileExpiry_loop now (files w) [] w)
      as [[r|r|e] w1]; cbn [fst snd] in *; repeat split; assumption.
Qed.

(** X17.  The guest routes and the user routes keep apart: a request to
    [uploadFilesGuest], [guestDownloadInfo] or [verifyGuestFilePassword]
    leaves the [File] collection and the users as they were, and a
    request to any other handler leaves the [GuestFile] collection as it
    was. *)
Theorem guest_and_user_shares_are_separate now req w :
  if guest_route req
  then files (snd (handle env now req w)) = files w /\
       users (snd (handle env now req w)) = users w
  else guestFiles (snd (handle env now req w)) = guestFiles w.
Proof.
  destruct req; cbn [handle guest_route].
  - apply uploadFiles_frame.
  - apply uploadFilesGuest_frame.
  - run_handler; break_matches; reflexivity.
  - run_handler; break_matches; split; reflexivity.
  - run_handler; break_matches; reflexivity.
  - run_handler; break_matches; reflexivity.
  - run_handler; break_matches; reflexivity.
  - run_handler; break_matches; reflexivity.
  - apply updateAllFileExpiry_world.
  - run_handler; break_matches; reflexivity.
  - run_handler; break_matches; reflexivity.
  - run_handler; break_matches; reflexivity.
  - run_handler; break_matches; reflexivity.
  - run_handler; break_matches; reflexivity.
  - run_handler; break_matches; split; reflexivity.
Qed.

(** How the two collections of shares change in one request. *)
Lemma handle_evolves now req w k :
  evolves (coll (model_of k) w)
          (coll (model_of k) (snd (handle env now req w))).
Proof.
  destruct req; cbn [handle].
  - (* uploadFiles *)
    destruct k; cbn [model_of coll FileModel GuestFileModel].
    + destruct (upload_made (fun d _ => fresh_share env UserShare b d)
                  UserShare now b req_files w) as [created [Hc Hf]].
      * intros file w0. apply upload_each_fresh.
      * intros file w0 d0 H. exact H.
      * intros d w0 us H. exact H.
      * cbn [upload model_of coll FileModel] in *. rewrite Hc.
        apply evolves_app. eapply Forall_impl; [|exact Hf].
        intros d (Hs & Hd & _). now split.
    + rewrite uploadFiles_frame. apply evolves_refl.
  - (* uploadFilesGuest *)
    destruct k; cbn [model_of coll FileModel GuestFileModel].
    + rewrite (proj1 (uploadFilesGuest_frame now req_files b w)).
      apply evolves_refl.
    + destruct (upload_made (fun d _ => fresh_share env GuestShare b d)
                  GuestShare now b req_files w) as [created [Hc Hf]].
      * intros file w0. apply upload_each_fresh.
      * intros file w0 d0 H. exact H.
      * intros d w0 us H. exact H.
      * cbn [upload model_of coll GuestFileModel] in *. rewrite Hc.
        apply evolves_app. eapply Forall_impl; [|exact Hf].
        intros d (Hs & Hd & _). now split.
  - destruct k; run_handler; break_matches; found_evolves.
  - destruct k; run_handler; break_matches; found_evolves.
  - destruct k; run_handler; break_matches; found_evolves.
  - destruct k; run_handler; break_matches; found_evolves.
  - destruct k; run_handler; break_matches; try found_evolves.
    all: eapply evolves_replace_found; [eassumption|];
      unfold descends; simpl; repeat split; try lia;
      match goal with
      | H : (_ || _)%bool = true |- _ =>
          apply orb_true_iff in H; destruct H as [H|H];
          apply String.eqb_eq in H; subst; auto
      | H : negb (_ || _)%bool = false |- _ =>
          apply negb_false_iff, orb_true_iff in H; destruct H as [H|H];
          apply String.eqb_eq in H; subst; auto
      end.
  - destruct k; run_handler; break_matches; found_evolves.
  - destruct k; cbn [model_of coll FileModel GuestFileModel].
    + apply updateAllFileExpiry_world.
    + rewrite (proj1 (proj2 (updateAllFileExpiry_world now w))).
      apply evolves_refl.
  - destruct k; run_handler; break_matches; found_evolves.
  - destruct k; run_handler; break_matches; found_evolves.
  - destruct k; run_handler; break_matches; found_evolves.
  - destruct k; run_handler; break_matches; found_evolves.
  - destruct k; run_handler; break_matches; found_evolves.
  - destruct k; run_handler; break_matches; found_evolves.
Qed.

Lemma evolves_keeps_undeleted c c' :
  evolves c c' ->
  Forall (fun d => File.status d <> "deleted") c ->
  Forall (fun d => File.status d <> "deleted") c'.
Proof.
  intros He Hc. apply Forall_forall. intros x Hx.
  destruct (He x Hx) as [[d [Hd (_ & _ & Hs)]] | [_ Hs]].
  - rewrite Forall_forall in Hc. specialize (Hc d Hd).
    destruct Hs as [E|[E|[E|E]]]; rewrite E; try discriminate. exact Hc.
  - rewrite Hs. discriminate.
Qed.

Lemma run_keeps_undeleted trace :
  forall w k,
    Forall (fun d => File.status d <> "deleted") (coll (model_of k) w) ->
    Forall (fun d => File.status d <> "deleted")
           (coll (model_of k) (run env trace w)).
Proof.
  induction trace as [|[now req] rest IH]; intros w k Hw; simpl.
  - exact Hw.
  - apply IH. apply (evolves_keeps_undeleted _ _ (handle_evolves now req w k) Hw).
Qed.

(** X18.  None of the handlers of [handle] stores the status ['deleted']
    (the handlers of the controller left out of [handle] write nothing):
    after any sequence of requests to a store that began empty, no user
    share and no guest share has that status, and so [deleteFile] never
    answers AlreadyDeleted (400) there. *)
Theorem deleted_status_is_never_stored trace fileId :
  Forall (fun d => File.status d <> "deleted")
         (files (run env trace empty_world)) /\
  Forall (fun d => File.status d <> "deleted")
         (guestFiles (run env trace empty_world)) /\
  fst (deleteFile env fileId (run env trace empty_world))
    <> respond 400 (ErrorBody "File already deleted").
Proof.
  assert (Hf : Forall (fun d => File.status d <> "deleted")
                 (files (run env trace empty_world))).
  { apply (run_keeps_undeleted trace empty_world UserShare). constructor. }
  split; [exact Hf|]. split.
  - apply (run_keeps_undeleted trace empty_world GuestShare). constructor.
  - unfold deleteFile, send. run.
    destruct (find (has_id fileId) (files (run env trace empty_world)))
      as [d|] eqn:Hd; simpl; [|discriminate].
    rewrite Forall_forall in Hf.
    assert (Hs : File.status d <> "deleted").
    { apply Hf. apply find_some in Hd. tauto. }
    apply String.eqb_neq in Hs. rewrite Hs. simpl.
    destruct (s3_error env _); simpl; discriminate.
Qed.

(** X19.  No request lowers a download count: every record in a
    collection after a request either has the [_id] of a record that was
    there before, with a count at least as large, or has a count of
    zero (it was just uploaded). *)
Theorem download_counts_never_decrease now req w k x :
  In x (coll (model_of k) (snd (handle env now req w))) ->
  (exists d,
     In d (coll (model_of k) w) /\
     File._id d = File._id x /\
     File.downloadedContent d <= File.downloadedContent x) \/
  File.downloadedContent x = 0.
Proof.
  intro Hx.
  destruct (handle_evolves now req w k x Hx)
    as [[d [Hd (Hid & Hc & _)]] | [Hc _]].
  - left. exists d. repeat split; [exact Hd | now symmetry | exact Hc].
  - now right.
Qed.

(** ** A new password and the download by id *)

(** X20.  After [updateFilePassword] with a password [s] on a protected,
    active, unexpired record, [downloadFile] compares against the new
    hash: it issues the URL for [s] when [bcrypt.compare] accepts the
    hash [bcrypt.hash] made of it, and answers IncorrectPassword (403)
    for every password the new hash does not match, the former one
    included. *)
Theorem new_password_governs_download now fileId s w d url :
  find (has_id fileId) (files w) = Some d ->
  File.isPasswordProtected d = true ->
  downloadable now d ->
  s <> "" ->
  getSignedUrl env (download_command env d) (24 * 60 * 60) = inr url ->
  (bcrypt_compare env s (bcrypt_hash env s (ticks w)) = true ->
   issues url
     (fst (downloadFile env now fileId (Js.str s)
             (snd (updateFilePassword env fileId (Js.str s) w))))) /\
  (forall other,
     other <> "" ->
     bcrypt_compare env other (bcrypt_hash env s (ticks w)) = false ->
     fst (downloadFile env now fileId (Js.str other)
            (snd (updateFilePassword env fileId (Js.str s) w)))
       = respond 403 (ErrorBody "Incorrect password")).
Proof.
  intros Hf Hp Hd Hne Hu.
  apply downloadable_iff in Hd. destruct Hd as [Hs He].
  destruct (updateFilePassword_stores_hash fileId s w d Hf Hne)
    as [_ [Hf1 _]].
  set (w1 := snd (updateFilePassword env fileId (Js.str s) w)) in *.
  set (d1 := File.set_password (Some (bcrypt_hash env s (ticks w))) d) in *.
  apply String.eqb_eq in Hs.
  unfold download_command in Hu. change (24 * 60 * 60) with 86400 in Hu.
  split.
  - intro Hc. unfold downloadFile, compare. run. rewrite Hf1.
    subst d1. simpl. rewrite Hs. simpl. rewrite He, Hp. simpl.
    apply String.eqb_neq in Hne. rewrite Hne. simpl.
    unfold ret. simpl. rewrite Hc. simpl. rewrite Hu. unfold ret. simpl.
    destruct (find _ (users w1)); split; reflexivity.
  - intros other Hno Hc. unfold downloadFile, compare. run. rewrite Hf1.
    subst d1. simpl. rewrite Hs. simpl. rewrite He, Hp. simpl.
    apply String.eqb_neq in Hno. rewrite Hno. simpl.
    unfold ret. simpl. now rewrite Hc.
Qed.

(** ** The public URL of a blob *)

Lemma strip_trailing_slash_app s : strip_trailing_slash (s ++ "/") = s.
Proof.
  induction s as [|c s' IH]; [reflexivity|].
  change (String c s' ++ "/") with (String c (s' ++ "/")).
  destruct s' as [|c' s'']; [reflexivity|].
  change (String c' s'' ++ "/") with (String c' (s'' ++ "/")) in *.
  cbn [strip_trailing_slash]. cbn [strip_trailing_slash] in IH.
  now rewrite IH.
Qed.

Lemma strip_trailing_slash_none s :
  (forall e, s <> e ++ "/") -> strip_trailing_slash s = s.
Proof.
  induction s as [|c s' IH]; intro H; [reflexivity|].
  destruct s' as [|c' s''].
  - cbn [strip_trailing_slash].
    destruct (Ascii.eqb_spec c "/") as [->|Hc]; [|reflexivity].
    elim (H ""). reflexivity.
  - cbn [strip_trailing_slash]. cbn [strip_trailing_slash] in IH.
    rewrite IH; [reflexivity|].
    intros e E. apply (H (String c e)).
    change (String c e ++ "/") with (String c (e ++ "/")). now rewrite E.
Qed.

(** X21.  [publicObjectUrl] drops one trailing slash of [S3_ENDPOINT]: an
    endpoint [e/] and an endpoint [e] without a slash at its end give the
    same URL [e/bucket/key]. *)
Theorem publicObjectUrl_one_slash bucket key :
  (forall e,
     S3_ENDPOINT env = e ++ "/" ->
     publicObjectUrl env bucket key = e ++ "/" ++ bucket ++ "/" ++ key) /\
  ((forall e, S3_ENDPOINT env <> e ++ "/") ->
   publicObjectUrl env bucket key
     = S3_ENDPOINT env ++ "/" ++ bucket ++ "/" ++ key).
Proof.
  unfold publicObjectUrl. split.
  - intros e E. now rewrite E, strip_trailing_slash_app.
  - intro H. now rewrite strip_trailing_slash_none.
Qed.

End Properties.

(** * Concrete runs *)

(** C1, as stated, fails on the boundary: a record whose [expiresAt]
    equals the clock reading is not strictly in the future, and is
    served. *)
Lemma short_code_resolution_not_strict :
  ~ (forall env k now code w d url,
       lookup k code w = Some d ->
       getSignedUrl env (download_command env d) (24 * 60 * 60) = inr url ->
       (issues url (fst (resolve_short_code env k now code w))
          <-> downloadable_strictly now d)).
Proof.
  intro H.
  specialize (H sample_env UserShare 864000000 "abc" sample_world report
                "http://localhost:9000/pastebox/file-share-app/report.pdf?X-Amz-Signature=5f"
                eq_refl eq_refl).
  destruct H as [H _].
  assert (Hi : issues
            "http://localhost:9000/pastebox/file-share-app/report.pdf?X-Amz-Signature=5f"
            (fst (resolve_short_code sample_env UserShare 864000000 "abc"
                    sample_world))).
  { split; reflexivity. }
  apply H in Hi. destruct Hi as [_ [E | [t [E L]]]].
  - discriminate E.
  - inversion E; subst. lia.
Qed.

Lemma short_code_resolution_succeeds_iff_downloadable_witness :
  lookup UserShare "abc" sample_world = Some report /\
  (issues
     "http://localhost:9000/pastebox/file-share-app/report.pdf?X-Amz-Signature=5f"
     (fst (resolve_short_code sample_env UserShare 864000000 "abc"
             sample_world))
   <-> downloadable 864000000 report).
Proof.
  split; [reflexivity|].
  apply (proj2 (short_code_resolution_succeeds_iff_downloadable
                  sample_env UserShare 864000000 "abc" sample_world)
               report _ eq_refl eq_refl).
Defined.

(** C2, as stated, fails: once the first access has marked the record
    expired, the next one is refused by the status check, with 403 and not
    410. *)
Lemma second_resolution_is_unavailable :
  ~ (forall env k now code w d,
       lookup k code w = Some d ->
       past now d ->
       statusCode (fst (resolve_short_code env k now code w)) = 410 /\
       statusCode
         (fst (resolve_short_code env k now code
                 (snd (resolve_short_code env k now code w)))) = 410).
Proof.
  intro H.
  destruct (H sample_env UserShare 864000001 "abc" sample_world report
              eq_refl) as [_ H2].
  - exists 864000000. split; [reflexivity | lia].
  - vm_compute in H2. discriminate H2.
Qed.

Lemma lazy_expiry_on_short_code_witness :
  statusCode
    (fst (resolve_short_code sample_env UserShare 864000001 "abc"
            sample_world)) = 410 /\
  lookup UserShare "abc"
    (snd (resolve_short_code sample_env UserShare 864000001 "abc"
            sample_world))
    = Some (File.set_status "expired" report) /\
  (forall later,
     resolve_short_code sample_env UserShare later "abc"
       (snd (resolve_short_code sample_env UserShare 864000001 "abc"
               sample_world))
     = (respond 403 (ErrorBody "This file is not available for download"),
        snd (resolve_short_code sample_env UserShare 864000001 "abc"
               sample_world))).
Proof.
  apply (lazy_expiry_on_short_code sample_env UserShare 864000001 "abc"
           sample_world report eq_refl eq_refl).
  exists 864000000. split; [reflexivity | lia].
Defined.

Lemma short_code_path_skips_password_witness :
  issues
    "http://localhost:9000/pastebox/file-share-app/report.pdf?X-Amz-Signature=5f"
    (fst (resolve_short_code sample_env UserShare 1000 "abc" sample_world))
  /\ downloadFile sample_env 1000 "f1" Js.undefined sample_world
     = (respond 401 (ErrorBody "Password required"), sample_world)
  /\ downloadFile sample_env 1000 "f1" (Js.str "guess") sample_world
     = (respond 403 (ErrorBody "Incorrect password"), sample_world).
Proof.
  assert (Hd : downloadable 1000 report).
  { split; [reflexivity|]. right. exists 864000000.
    split; [reflexivity | lia]. }
  pose proof (short_code_path_skips_password sample_env UserShare 1000 "abc"
                sample_world report _ eq_refl eq_refl Hd eq_refl) as [H1 H2].
  split; [exact H1|]. split.
  - exact (proj1 (H2 "f1" Js.undefined sample_world eq_refl) eq_refl).
  - apply (proj1 (proj2 (H2 "f1" (Js.str "guess") sample_world eq_refl))
             "guess" "$2a$10$$secret" eq_refl).
    + discriminate.
    + reflexivity.
    + reflexivity.
Defined.

(** C4: what [updateFilePassword] does to an unprotected record.  The
    hash is stored, [isPasswordProtected] stays [false], and the by-id
    route then serves the file to a caller who sends no password. *)
Theorem updateFilePassword_leaves_record_unprotected :
  fst (updateFilePassword sample_env "f2" (Js.str "secret") sample_world)
    = respond 200 (MessageBody "File password updated successfully") /\
  find (has_id "f2")
    (files (snd (updateFilePassword sample_env "f2" (Js.str "secret")
                   sample_world)))
    = Some (File.set_password (Some "$2a$10$$secret") notes) /\
  File.isPasswordProtected (File.set_password (Some "$2a$10$$secret") notes)
    = false /\
  fst (downloadFile sample_env 1000 "f2" Js.undefined
         (snd (updateFilePassword sample_env "f2" (Js.str "secret")
                 sample_world)))
    = respond 200
        (DownloadUrl
           "http://localhost:9000/pastebox/file-share-app/notes.txt?X-Amz-Signature=5f").
Proof.
  repeat split; reflexivity.
Qed.

(** C5, as stated, fails: the stored link carries [BASE_URL] in front of
    [/f/code], so it is not of the form [/f/{code}]. *)
Lemma regenerated_link_is_not_bare :
  ~ (forall env fileId w d,
       find (has_id fileId) (files w) = Some d ->
       exists code,
         fst (generateShareShortenLink env fileId w)
           = respond 200 (ShortUrl ("/f/" ++ code))).
Proof.
  intro H.
  destruct (H sample_env "f1" sample_world report eq_refl) as [code E].
  vm_compute in E. discriminate E.
Qed.

(** The lookup of [downloadInfo] does not find the record under its new
    code. *)
Lemma regenerated_link_unknown_to_downloadInfo :
  fst (generateShareShortenLink sample_env "f1" sample_world)
    = respond 200 (ShortUrl "https://pastebox.app/f/k") /\
  fst (downloadInfo sample_env 1000 "k"
         (snd (generateShareShortenLink sample_env "f1" sample_world)))
    = respond 404 (ErrorBody "File not found").
Proof. split; reflexivity. Qed.

Lemma generateShareShortenLink_rotates_witness :
  fst (generateShareShortenLink sample_env "f1" sample_world)
    = respond 200 (ShortUrl "https://pastebox.app/f/k") /\
  find (has_shortUrl "https://pastebox.app/f/k")
    (files (snd (generateShareShortenLink sample_env "f1" sample_world)))
    = Some (File.set_shortUrl "https://pastebox.app/f/k" report) /\
  downloadInfo sample_env 1000 "abc"
    (snd (generateShareShortenLink sample_env "f1" sample_world))
    = (respond 404 (ErrorBody "File not found"),
       snd (generateShareShortenLink sample_env "f1" sample_world)).
Proof.
  assert (Hnd : NoDup (map File.shortUrl (files sample_world))).
  { simpl. repeat constructor; simpl; intuition discriminate. }
  assert (Hfresh : forall x, In x (files sample_world) ->
            File.shortUrl x
              <> BASE_URL sample_env ++ "/f/"
                   ++ shortid_generate sample_env (ticks sample_world)).
  { simpl. intros x [E|[E|[E|[]]]]; subst x; discriminate. }
  pose proof (generateShareShortenLink_rotates sample_env "f1" sample_world
                report eq_refl Hnd Hfresh) as [H1 [H2 [_ [_ H5]]]].
  split; [exact H1|]. split; [exact H2|].
  exact (H5 1000 "abc" eq_refl).
Defined.

Lemma deleteFile_blob_then_record_witness :
  deleteFile sample_env "nope" sample_world
    = (respond 404 (ErrorBody "File not found"), sample_world) /\
  deleteFile sample_env "f3" sample_world
    = (respond 400 (ErrorBody "File already deleted"), sample_world) /\
  deleteFile offline_env "f1" sample_world
    = (respond 500 (ErrorDetail "Internal Server Error" "connect ECONNREFUSED"),
       sample_world) /\
  (files (snd (deleteFile sample_env "f1" sample_world)) = [notes; gone] /\
   objects (snd (deleteFile sample_env "f1" sample_world)) = [notes_blob]).
Proof.
  split; [|split; [|split]].
  - exact (proj1 (deleteFile_blob_then_record sample_env "nope" sample_world)
                 eq_refl).
  - exact (proj1 (proj2 (deleteFile_blob_then_record sample_env "f3"
                           sample_world))
                 gone eq_refl eq_refl).
  - apply (proj1 (proj2 (proj2 (deleteFile_blob_then_record offline_env "f1"
                                  sample_world)))
                 report "connect ECONNREFUSED" eq_refl).
    + discriminate.
    + reflexivity.
  - rewrite (proj2 (proj2 (proj2 (deleteFile_blob_then_record sample_env "f1"
                                    sample_world)))
                   report eq_refl).
    + split; reflexivity.
    + discriminate.
    + reflexivity.
Defined.


Lemma upload_sets_expiry_witness :
  exists created,
    guestFiles (snd (upload sample_env GuestShare 1000 [scan; scan]
                       two_days_body sample_world))
      = (guestFiles sample_world ++ created)%list /\
    Forall (expires_as_uploaded sample_env 1000 two_days_body) created /\
    statusCode
      (fst (upload sample_env GuestShare 1000 [scan; scan] two_days_body
              sample_world))
      = 201 /\
    List.length created = 2%nat.
Proof.
  destruct (upload_sets_expiry sample_env GuestShare 1000 [scan; scan]
              two_days_body sample_world) as [created [H1 [H2 H3]]].
  exists created. split; [exact H1|]. split; [exact H2|]. apply H3.
  - discriminate.
  - split; [reflexivity|]. split; [|split].
    + intro H. discriminate H.
    + intros _. exists 48. split; [reflexivity|]. split; [reflexivity|].
      unfold Js.valid_time, Js.max_time. simpl. lia.
    + intro H. discriminate H.
  - intro H. discriminate H.
Defined.

(** Hours that lead beyond the range of dates: the record is not saved
    and the upload answers 500, its blob already stored. *)
Example upload_beyond_the_range_of_dates :
  statusCode
    (fst (upload sample_env GuestShare 1000 [scan]
            {| Upload.isPassword := Js.undefined;
               Upload.password := Js.undefined;
               Upload.hasExpiry := Js.str "true";
               Upload.expiresAt := Js.number (Js.Fin 10000000000000);
               Upload.userId := "" |} sample_world)) = 500 /\
  guestFiles
    (snd (upload sample_env GuestShare 1000 [scan]
            {| Upload.isPassword := Js.undefined;
               Upload.password := Js.undefined;
               Upload.hasExpiry := Js.str "true";
               Upload.expiresAt := Js.number (Js.Fin 10000000000000);
               Upload.userId := "" |} sample_world))
    = guestFiles sample_world.
Proof. split; reflexivity. Qed.

(** The two cases of C8 on one file each. *)
Example upload_default_expiry :
  map File.expiresAt
    (files (snd (upload sample_env UserShare 1000 [scan] default_body
                   sample_world)))
    = [Some 864000000; Some 864000000; Some 5; Some (1000 + 240 * 3600000)].
Proof. reflexivity. Qed.

Example upload_two_days_expiry :
  map File.expiresAt
    (guestFiles (snd (upload sample_env GuestShare 1000 [scan] two_days_body
                        sample_world)))
    = [Some 172800000; Some (1000 + 48 * 3600000)].
Proof. reflexivity. Qed.

Lemma verify_is_read_only_witness :
  snd (verify_short_code sample_env UserShare "abc" (Js.str "secret")
         sample_world) = sample_world /\
  fst (verify_short_code sample_env UserShare "abc" (Js.str "secret")
         sample_world)
    = respond 200 (VerifySuccess "Password verified") /\
  fst (verify_short_code sample_env UserShare "xyz" (Js.str "secret")
         sample_world)
    = respond 400 (VerifyFailure "File not protected or not found") /\
  fst (verify_short_code sample_env GuestShare "nope" (Js.str "secret")
         sample_world)
    = respond 400 (VerifyFailure "File not protected or not found").
Proof.
  split; [|split; [|split]].
  - exact (proj1 (verify_is_read_only sample_env UserShare "abc"
                    (Js.str "secret") sample_world)).
  - exact (proj2 (proj2 (proj2 (verify_is_read_only sample_env UserShare
                                  "abc" (Js.str "secret") sample_world)))
                 report "secret" "$2a$10$$secret"
                 eq_refl eq_refl eq_refl eq_refl).
  - exact (proj1 (proj2 (proj2 (verify_is_read_only sample_env UserShare
                                  "xyz" (Js.str "secret") sample_world)))
                 notes eq_refl eq_refl).
  - exact (proj1 (proj2 (verify_is_read_only sample_env GuestShare "nope"
                           (Js.str "secret") sample_world))
                 eq_refl).
Defined.

(** The hours values C10 calls missing, empty or zero are falsy; the
    string "0" is not. *)
Example falsy_hours :
  map Js.truthy
    [Js.undefined; Js.null; Js.str ""; Js.number (Js.Fin 0); Js.str "0"]
    = [false; false; false; false; true].
Proof. reflexivity. Qed.


(** Hours that lead beyond the range of dates are refused: the record
    keeps its expiry. *)
Example updateFileExpiry_beyond_the_range_of_dates :
  updateFileExpiry sample_env 1000 "f1" (Js.number (Js.Fin 10000000000000))
    sample_world
    = (respond 500 (ErrorBody "Internal Server Error"), sample_world) /\
  updateFileExpiry sample_env 1000 "f1" (Js.number (Js.Fin 2400000000))
    sample_world
    = (respond 500 (ErrorBody "Internal Server Error"), sample_world).
Proof. split; reflexivity. Qed.

(** * Concrete runs of the further properties *)

Lemma served_resolution_counts_once_witness :
  lookup UserShare "xyz"
    (snd (resolve_short_code sample_env UserShare 1000 "xyz" sample_world))
    = Some (File.set_downloadedContent 4 notes) /\
  getDownloadCount "f2"
    (snd (resolve_short_code sample_env UserShare 1000 "xyz" sample_world))
    = (respond 200 (DownloadCount 4),
       snd (resolve_short_code sample_env UserShare 1000 "xyz" sample_world)).
Proof.
  assert (Hd : downloadable 1000 notes).
  { split; [reflexivity|]. right. exists 864000000.
    split; [reflexivity | lia]. }
  destruct (served_resolution_counts_once sample_env UserShare 1000 "xyz"
              sample_world notes _ eq_refl Hd eq_refl) as [H1 H2].
  split; [exact H1 | exact (H2 eq_refl)].
Defined.

Lemma unserved_resolution_changes_nothing_witness :
  snd (resolve_short_code sample_env UserShare 1000 "old" sample_world)
    = sample_world.
Proof.
  apply (unserved_resolution_changes_nothing sample_env UserShare 1000 "old"
           sample_world); vm_compute; discriminate.
Defined.

Lemma downloadInfo_credits_owner_witness :
  find (fun x => (User._id x =? "u1")%string)
       (users (snd (downloadInfo sample_env 1000 "abc" sample_world)))
    = Some (User.set_totalDownloads 1 alice).
Proof.
  assert (Hd : downloadable 1000 report).
  { split; [reflexivity|]. right. exists 864000000.
    split; [reflexivity | lia]. }
  exact (proj1 (downloadInfo_credits_owner sample_env 1000 "abc" sample_world
                  report _ eq_refl Hd eq_refl)
               alice eq_refl).
Defined.

Lemma downloadFile_touches_only_the_count_witness :
  snd (downloadFile sample_env 1000 "f1" (Js.str "guess") sample_world)
    = sample_world /\
  exists d,
    find (has_id "f1") (files sample_world) = Some d /\
    find (has_id "f1")
      (files (snd (downloadFile sample_env 1000 "f1" (Js.str "secret")
                     sample_world)))
      = Some (File.set_downloadedContent (File.downloadedContent d + 1) d).
Proof.
  split.
  - apply (proj1 (downloadFile_touches_only_the_count sample_env 1000 "f1"
                    (Js.str "guess") sample_world)).
    vm_compute. discriminate.
  - apply (proj1 (proj2 (downloadFile_touches_only_the_count sample_env 1000
                           "f1" (Js.str "secret") sample_world))).
    reflexivity.
Defined.


Lemma reactivated_record_expires_again_witness :
  statusCode
    (fst (downloadInfo sample_env 1000 "old"
            (snd (updateFileStatus "f3" (Js.str "active") sample_world))))
    = 410 /\
  lookup UserShare "old"
    (snd (downloadInfo sample_env 1000 "old"
            (snd (updateFileStatus "f3" (Js.str "active") sample_world))))
    = Some (File.set_status "expired" gone).
Proof.
  apply (proj1 (proj2 (reactivated_record_expires_again sample_env 1000 "f3"
                         "old" sample_world gone eq_refl eq_refl
                         ltac:(discriminate)))).
  exists 5. split; [reflexivity | lia].
Defined.

Lemma extended_expiry_serves_active_only_witness :
  issues
    "http://localhost:9000/pastebox/file-share-app/report.pdf?X-Amz-Signature=5f"
    (fst (downloadInfo sample_env 2000000000 "abc"
            (snd (updateFileExpiry sample_env 2000000000 "f1" (Js.str "48")
                    sample_world)))).
Proof.
  assert (Hv : Js.valid_time (2000000000 + 48 * 3600000)).
  { unfold Js.valid_time, Js.max_time. simpl. lia. }
  apply (proj1 (extended_expiry_serves_active_only sample_env 2000000000 "f1"
                  "abc" (Js.str "48") 48 sample_world report eq_refl eq_refl
                  eq_refl eq_refl eq_refl Hv ltac:(lia))).
  - reflexivity.
  - reflexivity.
Defined.

Lemma updateAllFileExpiry_idempotent_witness :
  updateAllFileExpiry 864000001
    (snd (updateAllFileExpiry 864000001 sample_world))
    = updateAllFileExpiry 864000001 sample_world.
Proof.
  apply (updateAllFileExpiry_idempotent 864000001 sample_world).
  - discriminate.
  - simpl. repeat constructor; simpl; intuition discriminate.
Defined.

Lemma updateAllFileExpiry_leaves_active_unexpired_witness :
  Forall (fun d =>
            (File.status d = "active" -> downloadable 1000 d) /\
            (live d = true -> File.hasExpiry d = true))
         (files (snd (updateAllFileExpiry 1000 sample_world))).
Proof.
  apply (updateAllFileExpiry_leaves_active_unexpired 1000 sample_world).
  - discriminate.
  - simpl. repeat constructor; simpl; intuition discriminate.
Defined.

Lemma uploadFiles_counts_uploads_witness :
  exists u',
    find (fun x => (User._id x =? "u1")%string)
         (users (snd (uploadFiles sample_env 1000 [scan; scan] default_body
                        sample_world))) = Some u' /\
    User.totalUploads u' = 2 + 2 /\
    User.imageCount u' = 0 + 0 /\
    User.videoCount u' = 0 + 0 /\
    User.documentCount u' = 1 + 2 /\
    User.totalDownloads u' = 0.
Proof.
  apply (proj1 (uploadFiles_counts_uploads sample_env 1000 [scan; scan]
                  default_body sample_world alice eq_refl)).
  reflexivity.
Defined.

Lemma upload_refused_before_storing_witness :
  uploadFiles sample_env 1000 [scan]
    {| Upload.isPassword := Js.undefined; Upload.password := Js.undefined;
       Upload.hasExpiry := Js.undefined; Upload.expiresAt := Js.undefined;
       Upload.userId := "nobody" |} sample_world
    = (respond 404 (ErrorBody "User not found"), sample_world).
Proof.
  apply (proj2 (upload_refused_before_storing sample_env UserShare 1000 _
                  sample_world)).
  - discriminate.
  - reflexivity.
Defined.

Lemma deleteFile_removes_for_good_witness :
  deleteFile sample_env "f1" (snd (deleteFile sample_env "f1" sample_world))
    = (respond 404 (ErrorBody "File not found"),
       snd (deleteFile sample_env "f1" sample_world)) /\
  ~ has_blob sample_env report (snd (deleteFile sample_env "f1" sample_world)).
Proof.
  assert (Hnd : NoDup (map File._id (files sample_world))).
  { simpl. repeat constructor; simpl; intuition discriminate. }
  destruct (deleteFile_removes_for_good sample_env "f1" sample_world report
              eq_refl Hnd eq_refl) as [H1 [H2 _]].
  split; [exact H1 | exact H2].
Defined.

Lemma resolveShareLink_only_expires_witness :
  fst (resolveShareLink sample_env 1000 "nope" sample_world)
    = respond 404 (ErrorBody "Invalid or expired link") /\
  statusCode
    (fst (resolveShareLink sample_env 1000 "k"
            (snd (generateShareShortenLink sample_env "f3" sample_world))))
    = 410 /\
  find (has_shortUrl "https://pastebox.app/f/k")
       (files (snd (resolveShareLink sample_env 1000 "k"
                      (snd (generateShareShortenLink sample_env "f3"
                              sample_world)))))
    = Some (File.set_status "expired"
              (File.set_shortUrl "https://pastebox.app/f/k" gone)).
Proof.
  split.
  - exact (proj1 (proj2 (resolveShareLink_only_expires sample_env 1000 "nope"
                           sample_world)) eq_refl).
  - apply (proj2 (proj2 (resolveShareLink_only_expires sample_env 1000 "k"
                    (snd (generateShareShortenLink sample_env "f3"
                            sample_world))))
                 (File.set_shortUrl "https://pastebox.app/f/k" gone)
                 eq_refl).
    exists 5. split; [reflexivity | lia].
Defined.


Lemma download_counts_never_decrease_witness :
  (exists d,
     In d (files sample_world) /\
     File._id d = File._id (File.set_downloadedContent 4 notes) /\
     File.downloadedContent d
       <= File.downloadedContent (File.set_downloadedContent 4 notes)) \/
  File.downloadedContent (File.set_downloadedContent 4 notes) = 0.
Proof.
  apply (download_counts_never_decrease sample_env 1000 (DownloadInfoOf "xyz")
           sample_world UserShare).
  simpl. right. left. reflexivity.
Defined.

Lemma new_password_governs_download_witness :
  issues
    "http://localhost:9000/pastebox/file-share-app/report.pdf?X-Amz-Signature=5f"
    (fst (downloadFile sample_env 1000 "f1" (Js.str "hunter2")
            (snd (updateFilePassword sample_env "f1" (Js.str "hunter2")
                    sample_world)))) /\
  fst (downloadFile sample_env 1000 "f1" (Js.str "secret")
         (snd (updateFilePassword sample_env "f1" (Js.str "hunter2")
                 sample_world)))
    = respond 403 (ErrorBody "Incorrect password").
Proof.
  assert (Hd : downloadable 1000 report).
  { split; [reflexivity|]. right. exists 864000000.
    split; [reflexivity | lia]. }
  destruct (new_password_governs_download sample_env 1000 "f1" "hunter2"
              sample_world report _ eq_refl eq_refl Hd ltac:(discriminate)
              eq_refl) as [H1 H2].
  split.
  - exact (H1 eq_refl).
  - apply (H2 "secret"); [discriminate | reflexivity].
Defined.

Lemma publicObjectUrl_one_slash_witness :
  publicObjectUrl sample_env "pastebox" "file-share-app/a.txt"
    = "http://localhost:9000" ++ "/" ++ "pastebox" ++ "/"
      ++ "file-share-app/a.txt".
Proof.
  exact (proj1 (publicObjectUrl_one_slash sample_env "pastebox"
                  "file-share-app/a.txt")
               "http://localhost:9000" eq_refl).
Defined.
